(** * Example strategies of the chess bot ([strategies.py])

    A shallow embedding of the classes of [strategies.py] and the properties
    of their move selection.

    The module relies on three collaborators that are not part of the
    repository: the chess rules library ([chess]: boards, moves, notation),
    the analysis engine reached through [chess.engine], and [random].  They
    enter the development as interfaces (type classes); the facts about them
    that a property relies on are explicit hypotheses, and concrete instances
    at the end of the definitions show that the hypotheses can be met and
    serve for the concrete runs. *)

From Stdlib Require Import List String Ascii ZArith QArith Bool Lia.
From stdpp Require Import gmap strings.
Import ListNotations.

Local Open Scope string_scope.
Local Open Scope list_scope.
Local Open Scope nat_scope.

(** ** Python values that cross the strategy interface *)

(** The exceptions the modelled code can raise. *)
Inductive exn : Type :=
| NotImplementedError (msg : string)
| IndexError
| ZeroDivisionError
| RecursionError
| AttributeError
| TypeError
| EngineError.

(** What [search] hands back.  Python is dynamically typed: the strategies
    return a [chess.Move] taken from the legal moves, the opening replies of
    [Anarchy] are plain [str] objects, and [bestMove] may still be [None]. *)
Inductive Result (Move : Type) : Type :=
| RMove (m : Move)
| RStr (s : string)
| RNone.
Arguments RMove {Move} m.
Arguments RStr {Move} s.
Arguments RNone {Move}.

(** The [timeLeft] argument of [search]: a number of milliseconds, or the
    [chess.engine.Limit] object passed on the first move. *)
Inductive TimeLeft (Num Limit : Type) : Type :=
| Millis (t : Num)
| FirstMoveLimit (l : Limit).
Arguments Millis {Num Limit} t.
Arguments FirstMoveLimit {Num Limit} l.

(** ** String helpers ([str] indexing and slicing) *)

(** [s[0]]: raises [IndexError] on the empty string. *)
Definition str_first (s : string) : exn + ascii :=
  match s with
  | EmptyString => inl IndexError
  | String c _ => inr c
  end.

(** [s[-2:]]: the last two characters, or all of [s] when it is shorter. *)
Definition str_last2 (s : string) : string :=
  substring (String.length s - 2) 2 s.

(** ** Stable sort by key ([list.sort(key=...)]) *)

(** [x] comes from further left in the original list than the elements of
    [l], so it goes before the first element whose key is not smaller. *)
Fixpoint insert_by {A : Type} (key : A -> string) (x : A) (l : list A) : list A :=
  match l with
  | [] => [x]
  | y :: l' =>
      if String.leb (key x) (key y) then x :: y :: l'
      else y :: insert_by key x l'
  end.

Fixpoint sort_by {A : Type} (key : A -> string) (l : list A) : list A :=
  match l with
  | [] => []
  | x :: l' => insert_by key x (sort_by key l')
  end.

(** ** The external collaborators *)

(** The chess library. *)
Class ChessLib : Type := {
  Board : Type;
  Move : Type;
  (** [list(board.legal_moves)], in generation order. *)
  legal_moves : Board -> list Move;
  is_en_passant : Board -> Move -> bool;
  (** [board.board_fen()]: the piece placement only. *)
  board_fen : Board -> string;
  (** [board.san(move)]: algebraic notation, which depends on the board. *)
  san : Board -> Move -> string;
  (** [str(move)]: coordinate notation. *)
  uci : Move -> string;
  (** [board.turn]: [True] is White. *)
  turn : Board -> bool;
  push : Board -> Move -> Board;
  (** [board.pop()] raises [IndexError] on an empty move stack. *)
  pop : Board -> option Board
}.

(** Numbers.  [timeLeft], [searchTime] and the literals are Python numbers
    (the divisions produce floats).  The arithmetic is an interface, so that
    what is proved holds for whatever arithmetic evaluates the expressions. *)
Class Numeric : Type := {
  Num : Type;
  num_of_Z : Z -> Num;
  num_of_nat : nat -> Num;
  num_mul : Num -> Num -> Num;
  num_div : Num -> Num -> Num;
  num_sub : Num -> Num -> Num;
  num_gtb : Num -> Num -> bool;
  (** The float literals [0.1] and [0.01]. *)
  float_0_1 : Num;
  float_0_01 : Num
}.

(** The analysis engine.  [analyse engine board limit] stands for
    [stockfish.analyse(board, Limit(time=limit))["score"].relative]: the
    engine is an external process with a state of its own, and the call may
    fail. *)
Class EngineLib (Board Num : Type) : Type := {
  Engine : Type;
  Score : Type;
  Limit : Type;
  analyse : Engine -> Board -> Num -> (exn + Score) * Engine;
  (** [a > b] on scores. *)
  score_gtb : Score -> Score -> bool
}.

(** The random source: [random._randbelow]. *)
Class RandomLib : Type := {
  Rng : Type;
  randbelow : Rng -> nat -> nat * Rng
}.

(** ** Observable effects and the state the strategies work on *)

Inductive Event `{C : ChessLib} `{N : Numeric} `{E : !EngineLib Board Num} : Type :=
| EvPrint (line : string)
| EvPush (m : Move)
| EvPop
| EvAnalyse (b : Board) (limit : Num) (r : exn + Score).

(** The mutable objects a call works on: the [board] it is given, the engine
    process, the random generator, and the record of what happened (oldest
    event first). *)
Record World `{C : ChessLib} `{N : Numeric} `{E : !EngineLib Board Num}
    `{R : RandomLib} : Type := mkWorld {
  board : Board;
  engine : Engine;
  rng : Rng;
  trace : list Event
}.

Section Strategies.
Context `{C : ChessLib} `{N : Numeric} `{E : !EngineLib Board Num} `{R : RandomLib}.

Definition set_board (b : Board) (w : World) : World :=
  mkWorld _ _ _ _ b (engine w) (rng w) (trace w).
Definition set_engine (e : Engine) (w : World) : World :=
  mkWorld _ _ _ _ (board w) e (rng w) (trace w).
Definition set_rng (g : Rng) (w : World) : World :=
  mkWorld _ _ _ _ (board w) (engine w) g (trace w).
Definition emit (ev : Event) (w : World) : World :=
  mkWorld _ _ _ _ (board w) (engine w) (rng w) (trace w ++ [ev]).

(** State and exceptions. *)
Definition M (A : Type) : Type := World -> (exn + A) * World.

Definition ret {A} (a : A) : M A := fun w => (inr a, w).
Definition raise {A} (e : exn) : M A := fun w => (inl e, w).
Definition bind {A B} (c : M A) (k : A -> M B) : M B :=
  fun w =>
    match c w with
    | (inr a, w') => k a w'
    | (inl e, w') => (inl e, w')
    end.
Definition lift {A} (r : exn + A) : M A := fun w => (r, w).

Notation "x <- c ;; k" := (bind c (fun x => k))
  (at level 100, c at next level, right associativity).
Notation "c ;; k" := (bind c (fun _ => k))
  (at level 100, right associativity).

Definition get_board : M Board := fun w => (inr (board w), w).
Definition print (line : string) : M unit :=
  fun w => (inr tt, emit (EvPrint line) w).
Definition board_push (m : Move) : M unit :=
  fun w => (inr tt, emit (EvPush m) (set_board (push (board w) m) w)).
Definition board_pop : M unit :=
  fun w =>
    match pop (board w) with
    | Some b => (inr tt, emit EvPop (set_board b w))
    | None => (inl IndexError, w)
    end.

(** *** [MinimalEngine] *)

(** [MinimalEngine.search]. *)
Definition MinimalEngine_search (timeleft : TimeLeft Num Limit) (ponder : bool)
  : M (Result Move) :=
  raise (NotImplementedError "The search method is not implemented").

(** [MinimalEngine.search_with_ponder]; [search] is [self.search], the
    method of whatever subclass the object belongs to, and [board] is the
    board of the state. *)
Definition search_with_ponder
    (search : TimeLeft Num Limit -> bool -> M (Result Move))
    (wtime btime winc binc : TimeLeft Num Limit) (ponder : bool)
  : M (Result Move) :=
  board <- get_board ;;
  let timeleft : TimeLeft Num Limit := Millis (num_of_Z 0) in
  let timeleft := if turn board then wtime else btime in
  search timeleft ponder.

(** *** [RandomMove], [Alphabetical], [FirstMove] *)

(** [random.choice(seq)]. *)
Definition random_choice {A} (seq : list A) : M A :=
  fun w =>
    match seq with
    | [] => (inl IndexError, w)
    | _ =>
        let '(i, g) := randbelow (rng w) (length seq) in
        match nth_error seq i with
        | Some x => (inr x, set_rng g w)
        | None => (inl IndexError, set_rng g w)
        end
    end.

(** [moves[0]]. *)
Definition first_item {A} (moves : list A) : M A :=
  match moves with
  | [] => raise IndexError
  | m :: _ => ret m
  end.

(** [RandomMove.search]. *)
Definition RandomMove_search : M (Result Move) :=
  board <- get_board ;;
  m <- random_choice (legal_moves board) ;;
  ret (RMove m).

(** [Alphabetical.search]. *)
Definition Alphabetical_search : M (Result Move) :=
  board <- get_board ;;
  let moves := legal_moves board in
  let moves := sort_by (san board) moves in
  m <- first_item moves ;;
  ret (RMove m).

(** [FirstMove.search]. *)
Definition FirstMove_search : M (Result Move) :=
  board <- get_board ;;
  let moves := legal_moves board in
  let moves := sort_by uci moves in
  m <- first_item moves ;;
  ret (RMove m).

(** *** [Anarchy] *)

(** [Anarchy.evaluate(board, timeLimit)]. *)
Definition Anarchy_evaluate (timeLimit : Num) : M Score :=
  fun w =>
    let limit := num_sub timeLimit float_0_01 in
    let '(r, e) := analyse (engine w) (board w) limit in
    (r, emit (EvAnalyse (board w) limit r) (set_engine e w)).

(** The first lines of [Anarchy.search]: [searchTime] after the adjustment
    to the remaining time; [n] is [len(legalMoves)]. *)
Definition search_time (timeLeft : TimeLeft Num Limit) (n : nat) : exn + Num :=
  let searchTime := float_0_1 in
  match timeLeft with
  | FirstMoveLimit _ => inr searchTime
  | Millis timeLeft =>
      let timeLeft := num_div timeLeft (num_of_Z 1000) in
      if num_gtb (num_mul (num_of_nat n) searchTime)
                 (num_div timeLeft (num_of_Z 10))
      then
        if Nat.eqb n 0 then inl ZeroDivisionError
        else inr (num_div (num_div timeLeft (num_of_Z 10)) (num_of_nat n))
      else inr searchTime
  end.

Definition fen_initial : string :=
  "rnbqkbnr/pppppppp/8/8/8/8/PPPPPPPP/RNBQKBNR".
Definition fen_e4_e5 : string :=
  "rnbqkbnr/pppp1ppp/8/4p3/4P3/8/PPPP1PPP/RNBQKBNR".
Definition fen_nf3_nc6 : string :=
  "r1bqkbnr/pppp1ppp/2n5/4p3/4P3/5N2/PPPP1PPP/RNBQKB1R".

(** The test of the "bongcloud" rule on a notation. *)
Definition is_king_e2_e7 (s : string) : bool :=
  String.eqb s "Ke2" || String.eqb s "Ke7"
  || String.eqb s "Kxe2" || String.eqb s "Kxe7".

(** [s[0] == "R" and s[-2:] == "a4"], given [c = s[0]]. *)
Definition is_Ra4 (c : ascii) (s : string) : bool :=
  Ascii.eqb c "R" && String.eqb (str_last2 s) "a4".

(** [bestEvaluation is None or bestEvaluation > evaluation], and the two
    assignments it guards; [best] is the pair [(bestEvaluation, bestMove)]. *)
Definition update_best (best : option Score * option Move)
    (move : Move) (evaluation : Score) : option Score * option Move :=
  match fst best with
  | None => (Some evaluation, Some move)
  | Some bestEvaluation =>
      if score_gtb bestEvaluation evaluation
      then (Some evaluation, Some move)
      else best
  end.

Definition py_move (bestMove : option Move) : Result Move :=
  match bestMove with
  | Some m => RMove m
  | None => RNone
  end.

(** The [for move in legalMoves] loop of [Anarchy.search] and the final
    [return bestMove]. *)
Fixpoint search_loop (searchTime : Num) (legalMoves : list Move)
    (best : option Score * option Move) : M (Result Move) :=
  match legalMoves with
  | [] => ret (py_move (snd best))
  | move :: rest =>
      board <- get_board ;;
      if is_en_passant board move then
        print "en passant is forced" ;;
        ret (RMove move)
      else if String.eqb (board_fen board) fen_initial then
        print "e4 best by test" ;;
        ret (RStr "e2e4")
      else if String.eqb (board_fen board) fen_e4_e5 then
        ret (RStr "g1f3")
      else if String.eqb (board_fen board) fen_nf3_nc6 then
        ret (RStr "f1b5")
      else if is_king_e2_e7 (san board move) then
        ret (RMove move)
      else
        c <- lift (str_first (san board move)) ;;
        if negb (is_Ra4 c (san board move)) then
          board_push move ;;
          evaluation <- Anarchy_evaluate searchTime ;;
          let best := update_best best move evaluation in
          board_pop ;;
          search_loop searchTime rest best
        else
          print "I saw Ra4, I just didn't like it" ;;
          search_loop searchTime rest best
  end.

(** [Anarchy.search]. *)
Definition Anarchy_search (timeLeft : TimeLeft Num Limit) : M (Result Move) :=
  board <- get_board ;;
  let legalMoves := legal_moves board in
  searchTime <- lift (search_time timeLeft (length legalMoves)) ;;
  search_loop searchTime legalMoves (None, None).

End Strategies.

(** ** Vocabulary of the properties *)

Section Vocabulary.
Context `{C : ChessLib} `{N : Numeric} `{E : !EngineLib Board Num} `{R : RandomLib}.

(** The engine queries among the events: position asked about, time limit,
    answer. *)
Fixpoint oracle_calls (evs : list Event) : list (Board * Num * (exn + Score)) :=
  match evs with
  | [] => []
  | EvAnalyse b limit r :: evs' => (b, limit, r) :: oracle_calls evs'
  | _ :: evs' => oracle_calls evs'
  end.

(** The candidates pushed on the board, in order. *)
Fixpoint pushed_moves (evs : list Event) : list Move :=
  match evs with
  | [] => []
  | EvPush m :: evs' => m :: pushed_moves evs'
  | _ :: evs' => pushed_moves evs'
  end.

(** Stack discipline of a run of events, starting with [depth] moves pushed
    and not yet popped: a push happens only with nothing outstanding, a pop
    only with exactly one push outstanding, and nothing is outstanding at
    the end. *)
Fixpoint stack_discipline (depth : nat) (evs : list Event) : bool :=
  match evs with
  | [] => Nat.eqb depth 0
  | EvPush _ :: evs' => Nat.eqb depth 0 && stack_discipline 1 evs'
  | EvPop :: evs' => Nat.eqb depth 1 && stack_discipline 0 evs'
  | _ :: evs' => stack_discipline depth evs'
  end.

(** The three opening snapshots with their replies. *)
Definition opening_book : list (string * string) :=
  [ (fen_initial, "e2e4"); (fen_e4_e5, "g1f3"); (fen_nf3_nc6, "f1b5") ].

Definition in_opening_book (fen : string) : bool :=
  existsb (fun entry => String.eqb fen (fst entry)) opening_book.

(** A returned value is a member of the legal moves of [b]: a move object of
    the list, or a string that is the coordinate notation of one. *)
Definition legal_result (b : Board) (r : Result Move) : Prop :=
  match r with
  | RMove m => In m (legal_moves b)
  | RStr s => exists m, In m (legal_moves b) /\ uci m = s
  | RNone => False
  end.

(** The candidates the loop skips by the test on the notation. *)
Definition banned (b : Board) (m : Move) : bool :=
  match str_first (san b m) with
  | inr c => is_Ra4 c (san b m)
  | inl _ => false
  end.

(** The per-move time of the shrink law for a budget of [T] milliseconds and
    [n] legal moves: with [T] converted to seconds, [(T/10)/n] when
    [n * 0.1 > T/10], and [0.1] otherwise. *)
Definition shrink_law (T : Num) (n : nat) : Num :=
  let seconds := num_div T (num_of_Z 1000) in
  if num_gtb (num_mul (num_of_nat n) float_0_1) (num_div seconds (num_of_Z 10))
  then num_div (num_div seconds (num_of_Z 10)) (num_of_nat n)
  else float_0_1.

(** A candidate on which no rule returns and whose notation can be
    indexed: not en passant, none of the four king notations, not empty. *)
Definition falls_through (b : Board) (m : Move) : bool :=
  negb (is_en_passant b m)
  && negb (is_king_e2_e7 (san b m))
  && negb (String.eqb (san b m) "").

(** The candidates of [moves] that pass the banned-move test. *)
Definition scored_candidates (b : Board) (moves : list Move) : list Move :=
  List.filter (fun m => negb (banned b m)) moves.

(** The engine query that scores candidate [fst c] with answer [snd c]. *)
Definition query_of (b : Board) (limit : Num) (c : Move * Score)
  : Board * Num * (exn + Score) :=
  (push b (fst c), limit, inr (snd c)).

(** The selection made over candidates with their scores, in order. *)
Definition select_best (best : option Score * option Move)
    (scored : list (Move * Score)) : option Score * option Move :=
  fold_left (fun best c => update_best best (fst c) (snd c)) scored best.

(** The state of the selection after the candidates [done]. *)
Definition selected (done : list (Move * Score))
    (best : option Score * option Move) : Prop :=
  (done = [] /\ best = (None, None))
  \/ exists before m s after,
       done = before ++ (m, s) :: after
       /\ best = (Some s, Some m)
       /\ Forall (fun c => score_gtb (snd c) s = true) before
       /\ Forall (fun c => score_gtb s (snd c) = false) after.

(** [r] is the earliest candidate of [scored] whose score no other score
    beats: the scores before it are strictly worse (greater), no score after
    it is strictly better (smaller). *)
Definition earliest_best (scored : list (Move * Score)) (r : Result Move) : Prop :=
  match r with
  | RMove m =>
      exists before s after,
        scored = before ++ (m, s) :: after
        /\ Forall (fun c => score_gtb (snd c) s = true) before
        /\ Forall (fun c => score_gtb s (snd c) = false) after
        /\ Forall (fun c => score_gtb s (snd c) = false) scored
  | RStr _ => False
  | RNone => scored = []
  end.

End Vocabulary.

(** A notation that denotes a rook move to a4: the piece letter is [R] and
    the destination square, read before a check or mate mark, is [a4]. *)
Definition strip_check (s : string) : string :=
  match String.get (String.length s - 1) s with
  | Some c =>
      if Ascii.eqb c "+" || Ascii.eqb c "#"
      then substring 0 (String.length s - 1) s
      else s
  | None => s
  end.

Definition denotes_rook_to_a4 (s : string) : bool :=
  match s with
  | EmptyString => false
  | String c _ => Ascii.eqb c "R" && String.eqb (str_last2 (strip_check s)) "a4"
  end.

(** ** [FillerEngine] *)

(** The Python values an attribute of the filler object can hold. *)
#[warnings="-register-all"]
Inductive Value (Obj : Type) : Type :=
| VNone
| VStr (s : string)
| VDict (d : gmap string (Value Obj))
| VObj (o : Obj)
| VBuiltin (qualname : string)
| VMethod (main_engine : Value Obj) (method_name : string).
Arguments VNone {Obj}.
Arguments VStr {Obj} s.
Arguments VDict {Obj} d.
Arguments VObj {Obj} o.
Arguments VBuiltin {Obj} qualname.
Arguments VMethod {Obj} main_engine method_name.

(** The objects that own a filler engine.  [notify] is the method of the
    owner's class (subclasses override it), acting on the owner's state;
    [type_attr] is what ordinary attribute lookup finds on the class
    [FillerEngine] and on [object] ([__init__], [__getattr__], [__class__],
    ...). *)
Class OwnerLib : Type := {
  Obj : Type;
  Heap : Type;
  notify : Obj -> string -> list (Value Obj) -> list (string * Value Obj)
           -> Heap -> (exn + Value Obj) * Heap;
  type_attr : string -> option (Value Obj)
}.

Section Filler.
Context `{O : OwnerLib}.

(** [MinimalEngine.notify]: the body is [pass]. *)
Definition MinimalEngine_notify (method_name : string) (args : list (Value Obj))
    (kwargs : list (string * Value Obj)) (h : Heap) : (exn + Value Obj) * Heap :=
  (inr VNone, h).

(** [FillerEngine.__init__]: the instance dictionary after the three
    assignments. *)
Definition FillerEngine_init (main_engine : Value Obj) (name : Value Obj)
  : gmap string (Value Obj) :=
  <["main_engine" := main_engine]>
    (<["name" := name]>
       (<["id" := VDict {["name" := name]}]> ∅)).

(** The filler object as [MinimalEngine.__init__] leaves it:
    [self.engine = FillerEngine(self, name=self.name)] and then
    [self.engine.id = {"name": self.engine_name}]. *)
Definition MinimalEngine_init_engine (self : Obj) (name engine_name : Value Obj)
  : gmap string (Value Obj) :=
  <["id" := VDict {["name" := engine_name]}]> (FillerEngine_init (VObj self) name).

(** Ordinary lookup of [self.<name>]: the instance dictionary, then the
    class. *)
Definition lookup_attr (self : gmap string (Value Obj)) (name : string)
  : option (Value Obj) :=
  match self !! name with
  | Some v => Some v
  | None => type_attr name
  end.

(** [FillerEngine.__getattr__]: [self.main_engine] is itself an attribute
    access, which re-enters [__getattr__] without end when the attribute is
    missing. *)
Definition FillerEngine_getattr (self : gmap string (Value Obj))
    (method_name : string) : exn + Value Obj :=
  match lookup_attr self "main_engine" with
  | Some main_engine => inr (VMethod main_engine method_name)
  | None => inl RecursionError
  end.

(** [shim.<name>]: Python calls [__getattr__] only when ordinary lookup
    fails. *)
Definition getattr (self : gmap string (Value Obj)) (name : string)
  : exn + Value Obj :=
  match lookup_attr self name with
  | Some v => inr v
  | None => FillerEngine_getattr self name
  end.

(** Calling [f] with positional arguments [args] and keyword arguments
    [kwargs], for the values of this model: the closure [method] passes
    [method_name], then [args] and [kwargs], to [main_engine.notify]. *)
Definition call (f : Value Obj) (args : list (Value Obj))
    (kwargs : list (string * Value Obj)) (h : Heap) : (exn + Value Obj) * Heap :=
  match f with
  | VMethod (VObj main_engine) method_name =>
      notify main_engine method_name args kwargs h
  | VMethod _ _ => (inl AttributeError, h)
  | _ => (inl TypeError, h)
  end.

End Filler.

(** ** Concrete collaborators

    A chess library given by tables (a position lists its legal moves with
    their notations), an engine that answers the score written on the move
    last played, rational arithmetic, and a counter as random source. *)

Record TMove : Type := mkTMove {
  tm_uci : string;
  tm_san : string;
  tm_ep : bool;
  tm_score : Z
}.

Record TPos : Type := mkTPos {
  tp_fen : string;
  tp_white : bool;
  tp_moves : list TMove
}.

(** The board object: the current position, the moves played on it
    ([move_stack]) and the positions to restore. *)
Record TBoard : Type := mkTBoard {
  tb_pos : TPos;
  tb_move_stack : list TMove;
  tb_stack : list TPos
}.

(** The tables stop after one move: the position reached has no entries. *)
Definition tb_push (b : TBoard) (m : TMove) : TBoard :=
  mkTBoard (mkTPos "" (negb (tp_white (tb_pos b))) [])
           (m :: tb_move_stack b) (tb_pos b :: tb_stack b).

Definition tb_pop (b : TBoard) : option TBoard :=
  match tb_move_stack b, tb_stack b with
  | _ :: ms, p :: st => Some (mkTBoard p ms st)
  | _, _ => None
  end.

#[local] Instance table_chess : ChessLib := {|
  Board := TBoard;
  Move := TMove;
  legal_moves b := tp_moves (tb_pos b);
  is_en_passant _ m := tm_ep m;
  board_fen b := tp_fen (tb_pos b);
  san _ m := tm_san m;
  uci := tm_uci;
  turn b := tp_white (tb_pos b);
  push := tb_push;
  pop := tb_pop
|}.

#[local] Instance rational_numbers : Numeric := {|
  Num := Q;
  num_of_Z := inject_Z;
  num_of_nat n := inject_Z (Z.of_nat n);
  num_mul := Qmult;
  num_div := Qdiv;
  num_sub := Qminus;
  num_gtb a b := negb (Qle_bool a b);
  float_0_1 := (1 # 10)%Q;
  float_0_01 := (1 # 100)%Q
|}.

Definition last_score (b : TBoard) : Z :=
  match tb_move_stack b with
  | m :: _ => tm_score m
  | [] => 0%Z
  end.

(** The engine state counts the queries. *)
#[local] Instance scripted_engine : EngineLib TBoard Q := {|
  Engine := nat;
  Score := Z;
  Limit := unit;
  analyse n b _ := (inr (last_score b), S n);
  score_gtb := Z.gtb
|}.

#[local] Instance counter_random : RandomLib := {|
  Rng := nat;
  randbelow g n := (g mod n, S g)
|}.

Definition mv (u s : string) (score : Z) : TMove := mkTMove u s false score.
Definition ep (u s : string) (score : Z) : TMove := mkTMove u s true score.

Definition start (p : TPos) : World := mkWorld _ _ _ _ (mkTBoard p [] []) 0 0 [].

(** The initial position, White to move. *)
Definition pos_initial : TPos :=
  mkTPos "rnbqkbnr/pppppppp/8/8/8/8/PPPPPPPP/RNBQKBNR" true
    [ mv "g1h3" "Nh3" 0; mv "g1f3" "Nf3" 0; mv "b1c3" "Nc3" 0; mv "b1a3" "Na3" 0;
      mv "h2h3" "h3" 0; mv "g2g3" "g3" 0; mv "f2f3" "f3" 0; mv "e2e3" "e3" 0;
      mv "d2d3" "d3" 0; mv "c2c3" "c3" 0; mv "b2b3" "b3" 0; mv "a2a3" "a3" 0;
      mv "h2h4" "h4" 0; mv "g2g4" "g4" 0; mv "f2f4" "f4" 0; mv "e2e4" "e4" 0;
      mv "d2d4" "d4" 0; mv "c2c4" "c4" 0; mv "b2b4" "b4" 0; mv "a2a4" "a4" 0 ].

(** After 1. e3 e5 2. e4: the placement of the second opening snapshot, with
    Black to move. *)
Definition pos_e3_e5_e4 : TPos :=
  mkTPos "rnbqkbnr/pppp1ppp/8/4p3/4P3/8/PPPP1PPP/RNBQKBNR" false
    [ mv "g8e7" "Ne7" 0; mv "g8h6" "Nh6" 0; mv "g8f6" "Nf6" 0;
      mv "f8e7" "Be7" 0; mv "f8d6" "Bd6" 0; mv "f8c5" "Bc5" 0;
      mv "f8b4" "Bb4" 0; mv "f8a3" "Ba3" 0; mv "e8e7" "Ke7" 0;
      mv "d8e7" "Qe7" 0; mv "d8f6" "Qf6" 0; mv "d8g5" "Qg5" 0;
      mv "d8h4" "Qh4" 0; mv "b8c6" "Nc6" 0; mv "b8a6" "Na6" 0;
      mv "h7h6" "h6" 0; mv "g7g6" "g6" 0; mv "f7f6" "f6" 0; mv "d7d6" "d6" 0;
      mv "c7c6" "c6" 0; mv "b7b6" "b6" 0; mv "a7a6" "a6" 0;
      mv "h7h5" "h5" 0; mv "g7g5" "g5" 0; mv "f7f5" "f5" 0; mv "d7d5" "d5" 0;
      mv "c7c5" "c5" 0; mv "b7b5" "b5" 0; mv "a7a5" "a5" 0 ].

(** White: Ke1, pawn e5.  Black: Kh8, pawn d5, which has just advanced two
    squares.  White to move; the capture en passant is generated last. *)
Definition pos_ep_king_e1 : TPos :=
  mkTPos "7k/8/8/3pP3/8/8/8/4K3" true
    [ mv "e1f2" "Kf2" (-40); mv "e1e2" "Ke2" (-35); mv "e1d2" "Kd2" (-45);
      mv "e1f1" "Kf1" (-30); mv "e1d1" "Kd1" (-30); mv "e5e6" "e6" (-60);
      ep "e5d6" "exd6" (-120) ].

(** The same with the white king on a1. *)
Definition pos_ep_king_a1 : TPos :=
  mkTPos "7k/8/8/3pP3/8/8/8/K7" true
    [ mv "a1b2" "Kb2" (-40); mv "a1a2" "Ka2" (-30); mv "a1b1" "Kb1" (-30);
      mv "e5e6" "e6" (-60); ep "e5d6" "exd6" (-120) ].

(** White: Kh1, Ra1.  Black: Kh4.  White to move; the rook move to a4 gives
    check along the fourth rank. *)
Definition pos_rook_check : TPos :=
  mkTPos "8/8/8/8/7k/8/8/R6K" true
    [ mv "h1h2" "Kh2" (-500); mv "h1g2" "Kg2" (-500); mv "h1g1" "Kg1" (-500);
      mv "a1a8" "Ra8" (-520); mv "a1a7" "Ra7" (-520); mv "a1a6" "Ra6" (-520);
      mv "a1a5" "Ra5" (-540); mv "a1a4" "Ra4+" (-560); mv "a1a3" "Ra3" (-540);
      mv "a1a2" "Ra2" (-520); mv "a1g1" "Rg1" (-560); mv "a1f1" "Rf1" (-520);
      mv "a1e1" "Re1" (-520); mv "a1d1" "Rd1" (-520); mv "a1c1" "Rc1" (-520);
      mv "a1b1" "Rb1" (-520) ].

(** White: Ka1, Rh4.  Black: Qa8 giving check, Rb8, Kg7.  White to move; the
    only legal move is the interposition of the rook on a4. *)
Definition pos_only_Ra4 : TPos :=
  mkTPos "qr6/6k1/8/8/7R/8/8/K7" true [ mv "h4a4" "Ra4" (-300) ].

(** An owner that records the notifications it receives. *)
#[local] Instance recording_owner : OwnerLib := {|
  Obj := nat;
  Heap := list (nat * string * list (Value nat) * list (string * Value nat));
  notify o name args kwargs h := (inr VNone, h ++ [(o, name, args, kwargs)]);
  type_attr name :=
    if existsb (String.eqb name)
         ["__init__"; "__getattr__"; "__class__"; "__dict__"; "__doc__"]
    then Some (VBuiltin name) else None
|}.

(** The engine name chosen by [MinimalEngine.__init__]:
    [self.__class__.__name__ if name is None else name]. *)
Definition MinimalEngine_engine_name (class_name : string) (name : option string)
  : string :=
  match name with
  | None => class_name
  | Some n => n
  end.

(** Fool's mate: White, to move, is checkmated and has no legal move. *)
Definition pos_checkmate : TPos :=
  mkTPos "rnb1kbnr/pppp1ppp/8/4p3/6Pq/5P2/PPPPP2P/RNBQKBNR" true [].

(** An engine that answers a given number of queries and fails on the
    next ones. *)
Definition crashing_engine : EngineLib TBoard Q := {|
  Engine := nat;
  Score := Z;
  Limit := unit;
  analyse n b _ :=
    match n with
    | O => (inl EngineError, O)
    | S k => (inr (last_score b), k)
    end;
  score_gtb := Z.gtb
|}.

Definition start_crashing (p : TPos) (answers : nat)
  : @World table_chess rational_numbers crashing_engine counter_random :=
  @mkWorld table_chess rational_numbers crashing_engine counter_random
    (mkTBoard p [] []) answers 0 [].

(** White: Kh1, Ra1.  Black: Kg8.  White to move; the rook move to a4 is
    quiet, and the engine likes it best. *)
Definition pos_rook_quiet : TPos :=
  mkTPos "6k1/8/8/8/8/8/8/R6K" true
    [ mv "h1h2" "Kh2" (-500); mv "h1g2" "Kg2" (-500); mv "h1g1" "Kg1" (-500);
      mv "a1a8" "Ra8+" (-520); mv "a1a7" "Ra7" (-540); mv "a1a6" "Ra6" (-520);
      mv "a1a5" "Ra5" (-520); mv "a1a4" "Ra4" (-900); mv "a1a3" "Ra3" (-520);
      mv "a1a2" "Ra2" (-520); mv "a1g1" "Rg1+" (-510); mv "a1f1" "Rf1" (-520);
      mv "a1e1" "Re1" (-520); mv "a1d1" "Rd1" (-520); mv "a1c1" "Rc1" (-520);
      mv "a1b1" "Rb1" (-520) ].

(** * Properties *)

(** ** Strings and sorting *)

Example str_last2_Rxa4 : str_last2 "Rxa4" = "a4".
Proof. reflexivity. Qed.

Example str_last2_check : str_last2 "Ra4+" = "4+".
Proof. reflexivity. Qed.

Example str_last2_short : str_last2 "a" = "a".
Proof. reflexivity. Qed.

(** The code's test on a notation and the reading of the notation agree on
    plain moves and captures, and differ on a move that gives check or
    mate. *)
Example rook_a4_notations :
  map denotes_rook_to_a4 ["Ra4"; "Rxa4"; "Rha4"; "Ra4+"; "Rxa4#"; "Ra5"; "a4"; "Ke2"]
  = [true; true; true; true; true; false; false; false]
  /\ map (fun s => is_Ra4 "R" s) ["Ra4"; "Rxa4"; "Rha4"; "Ra4+"; "Rxa4#"; "Ra5"]
     = [true; true; true; false; false; false].
Proof. split; reflexivity. Qed.

Example sort_by_stable :
  sort_by fst [("b", 1); ("a", 2); ("b", 3); ("a", 4)]
  = [("a", 2); ("a", 4); ("b", 1); ("b", 3)].
Proof. reflexivity. Qed.

Lemma insert_by_In {A} (key : A -> string) x y l :
  In y (insert_by key x l) <-> y = x \/ In y l.
Proof.
  induction l as [|z l IH]; simpl.
  - intuition congruence.
  - destruct (String.leb (key x) (key z)); simpl.
    + intuition congruence.
    + rewrite IH. intuition congruence.
Qed.

Lemma sort_by_In {A} (key : A -> string) y l :
  In y (sort_by key l) <-> In y l.
Proof.
  induction l as [|x l IH]; simpl; [tauto|].
  rewrite insert_by_In, IH. intuition congruence.
Qed.

Lemma insert_by_not_nil {A} (key : A -> string) x l : insert_by key x l <> [].
Proof.
  destruct l as [|y l]; simpl; [|destruct (String.leb _ _)]; discriminate.
Qed.

Lemma sort_by_nil_inv {A} (key : A -> string) l : sort_by key l = [] -> l = [].
Proof.
  destruct l as [|x l]; [reflexivity|]. simpl. intros H.
  exfalso. exact (insert_by_not_nil _ _ _ H).
Qed.

(** ** The loop of [Anarchy.search], one candidate at a time *)

Section LoopFacts.
Context `{C : ChessLib} `{N : Numeric} `{E : !EngineLib Board Num} `{R : RandomLib}.

(** What examining one candidate amounts to. *)
Lemma search_loop_cons (st : Num) (move : Move) (rest : list Move)
    (best : option Score * option Move) (w : World) :
  search_loop st (move :: rest) best w =
  if is_en_passant (board w) move then
    (inr (RMove move), emit (EvPrint "en passant is forced") w)
  else if String.eqb (board_fen (board w)) fen_initial then
    (inr (RStr "e2e4"), emit (EvPrint "e4 best by test") w)
  else if String.eqb (board_fen (board w)) fen_e4_e5 then (inr (RStr "g1f3"), w)
  else if String.eqb (board_fen (board w)) fen_nf3_nc6 then (inr (RStr "f1b5"), w)
  else if is_king_e2_e7 (san (board w) move) then (inr (RMove move), w)
  else
    match str_first (san (board w) move) with
    | inl e => (inl e, w)
    | inr c =>
        if is_Ra4 c (san (board w) move) then
          search_loop st rest best
            (emit (EvPrint "I saw Ra4, I just didn't like it") w)
        else
          let pushed := push (board w) move in
          let limit := num_sub st float_0_01 in
          let (r, e) := analyse (engine w) pushed limit in
          let w2 :=
            mkWorld _ _ _ _ pushed e (rng w)
              (trace w ++ [EvPush move; EvAnalyse pushed limit r]) in
          match r with
          | inl x => (inl x, w2)
          | inr evaluation =>
              match pop pushed with
              | Some b =>
                  search_loop st rest (update_best best move evaluation)
                    (mkWorld _ _ _ _ b e (rng w) (trace w2 ++ [EvPop]))
              | None => (inl IndexError, w2)
              end
          end
    end.
Proof.
  cbn [search_loop]. unfold bind, get_board, print, ret, lift.
  destruct (is_en_passant (board w) move); [reflexivity|].
  destruct (String.eqb (board_fen (board w)) fen_initial); [reflexivity|].
  destruct (String.eqb (board_fen (board w)) fen_e4_e5); [reflexivity|].
  destruct (String.eqb (board_fen (board w)) fen_nf3_nc6); [reflexivity|].
  destruct (is_king_e2_e7 (san (board w) move)); [reflexivity|].
  destruct (str_first (san (board w) move)) as [e|c]; [reflexivity|].
  destruct (is_Ra4 c (san (board w) move)); cbn [negb]; [reflexivity|].
  unfold board_push, Anarchy_evaluate, board_pop, emit, set_board, set_engine.
  cbn.
  destruct (analyse _ _ _) as [[x|ev] e]; cbn.
  - rewrite <- app_assoc. reflexivity.
  - destruct (pop _); rewrite <- ?app_assoc; reflexivity.
Qed.


Lemma oracle_calls_app (evs1 evs2 : list Event) :
  oracle_calls (evs1 ++ evs2) = oracle_calls evs1 ++ oracle_calls evs2.
Proof.
  induction evs1 as [|ev evs1 IH]; [reflexivity|].
  destruct ev; cbn; rewrite ?IH; reflexivity.
Qed.

Lemma stack_discipline_app (evs1 evs2 : list Event) (depth : nat) :
  stack_discipline depth evs1 = true ->
  stack_discipline 0 evs2 = true ->
  stack_discipline depth (evs1 ++ evs2) = true.
Proof.
  revert depth. induction evs1 as [|ev evs1 IH]; intros depth H1 H2.
  - cbn in *. apply Nat.eqb_eq in H1. subst depth. exact H2.
  - destruct ev; cbn in *.
    + auto.
    + apply andb_true_iff in H1 as [Hd H1]. rewrite Hd. cbn. auto.
    + apply andb_true_iff in H1 as [Hd H1]. rewrite Hd. cbn. auto.
    + auto.
Qed.

(** Every engine query of the loop carries the time limit [searchTime - 0.01],
    whatever the outcome of the run. *)
Lemma search_loop_limits (st : Num) (moves : list Move) :
  forall best w,
    exists evs,
      trace (snd (search_loop st moves best w)) = trace w ++ evs
      /\ Forall (fun c => snd (fst c) = num_sub st float_0_01) (oracle_calls evs).
Proof.
  induction moves as [|move rest IH]; intros best w.
  - exists []. cbn. rewrite app_nil_r. auto.
  - rewrite search_loop_cons.
    destruct (is_en_passant _ _);
      [eexists; split; [reflexivity|constructor]|].
    destruct (String.eqb _ fen_initial);
      [eexists; split; [reflexivity|constructor]|].
    destruct (String.eqb _ fen_e4_e5);
      [exists []; cbn; rewrite app_nil_r; auto|].
    destruct (String.eqb _ fen_nf3_nc6);
      [exists []; cbn; rewrite app_nil_r; auto|].
    destruct (is_king_e2_e7 _);
      [exists []; cbn; rewrite app_nil_r; auto|].
    destruct (str_first _) as [e|c];
      [exists []; cbn; rewrite app_nil_r; auto|].
    destruct (is_Ra4 _ _).
    + destruct (IH best (emit (EvPrint "I saw Ra4, I just didn't like it") w))
        as (evs & Htr & Hlim).
      eexists. split.
      * rewrite Htr. cbn. rewrite <- app_assoc. reflexivity.
      * exact Hlim.
    + cbv zeta. destruct (analyse _ _ _) as [[x|ev] e].
      * eexists. split; [reflexivity|]. cbn. auto.
      * destruct (pop _) as [b|].
        -- match goal with
           | |- context [search_loop st rest ?bst ?w0] =>
               destruct (IH bst w0) as (evs & Htr & Hlim)
           end.
           eexists. split.
           ++ rewrite Htr. cbn. rewrite <- !app_assoc. reflexivity.
           ++ cbn. constructor; [reflexivity|exact Hlim].
        -- eexists. split; [reflexivity|]. cbn. auto.
Qed.

End LoopFacts.

(** ** Push and pop in the loop *)

Section PushPop.
Context `{C : ChessLib} `{N : Numeric} `{E : !EngineLib Board Num} `{R : RandomLib}.

(** The contract of the chess library: undoing a legal move restores the
    board. *)
Hypothesis push_pop :
  forall (b : Board) (m : Move), In m (legal_moves b) -> pop (push b m) = Some b.

(** A run of the loop that returns leaves the board as it found it, and
    every push is followed by its pop before the next push. *)
Lemma search_loop_restores (st : Num) (b : Board) (moves : list Move) :
  Forall (fun m => In m (legal_moves b)) moves ->
  forall best w r w',
    board w = b ->
    search_loop st moves best w = (inr r, w') ->
    board w' = b
    /\ exists evs, trace w' = trace w ++ evs /\ stack_discipline 0 evs = true.
Proof.
  induction 1 as [|move rest Hin _ IH]; intros best w r w' Hb Hrun.
  - cbn in Hrun. injection Hrun as _ <-. split; [exact Hb|].
    exists []. rewrite app_nil_r. auto.
  - rewrite search_loop_cons in Hrun.
    destruct (is_en_passant _ _).
    { injection Hrun as _ <-. split; [exact Hb|]. eexists. split; reflexivity. }
    destruct (String.eqb _ fen_initial).
    { injection Hrun as _ <-. split; [exact Hb|]. eexists. split; reflexivity. }
    destruct (String.eqb _ fen_e4_e5).
    { injection Hrun as _ <-. split; [exact Hb|]. exists []. rewrite app_nil_r. auto. }
    destruct (String.eqb _ fen_nf3_nc6).
    { injection Hrun as _ <-. split; [exact Hb|]. exists []. rewrite app_nil_r. auto. }
    destruct (is_king_e2_e7 _).
    { injection Hrun as _ <-. split; [exact Hb|]. exists []. rewrite app_nil_r. auto. }
    destruct (str_first _) as [e|c]; [discriminate|].
    destruct (is_Ra4 _ _).
    + apply IH in Hrun; [|exact Hb].
      destruct Hrun as (Hb' & evs & Htr & Hsd). split; [exact Hb'|].
      eexists. split.
      * rewrite Htr. cbn. rewrite <- app_assoc. reflexivity.
      * exact Hsd.
    + cbv zeta in Hrun. rewrite Hb in Hrun.
      destruct (analyse _ _ _) as [[x|ev] e]; [discriminate|].
      rewrite (push_pop _ _ Hin) in Hrun.
      apply IH in Hrun; [|reflexivity].
      destruct Hrun as (Hb' & evs & Htr & Hsd). split; [exact Hb'|].
      eexists. split.
      * rewrite Htr. cbn. rewrite <- !app_assoc. reflexivity.
      * cbn. exact Hsd.
Qed.

(** What a run of the loop can return: a candidate, the reply of the
    opening book for the placement, or the incumbent best move. *)
Lemma search_loop_result (st : Num) (b : Board) (moves : list Move) :
  Forall (fun m => In m (legal_moves b)) moves ->
  forall best w r w',
    board w = b ->
    (forall m, snd best = Some m -> In m (legal_moves b)) ->
    search_loop st moves best w = (inr r, w') ->
    match r with
    | RMove m => In m (legal_moves b)
    | RStr s => In (board_fen b, s) opening_book
    | RNone => True
    end.
Proof.
  induction 1 as [|move rest Hin _ IH]; intros best w r w' Hb Hbest Hrun.
  - cbn in Hrun. injection Hrun as <- _.
    destruct (snd best) as [m|] eqn:Hm; cbn; auto.
  - rewrite search_loop_cons in Hrun. rewrite Hb in Hrun.
    destruct (is_en_passant _ _); [injection Hrun as <- _; exact Hin|].
    destruct (String.eqb _ fen_initial) eqn:H1.
    { injection Hrun as <- _. apply String.eqb_eq in H1. rewrite H1. cbn. auto. }
    destruct (String.eqb _ fen_e4_e5) eqn:H2.
    { injection Hrun as <- _. apply String.eqb_eq in H2. rewrite H2. cbn. auto. }
    destruct (String.eqb _ fen_nf3_nc6) eqn:H3.
    { injection Hrun as <- _. apply String.eqb_eq in H3. rewrite H3. cbn. auto. }
    destruct (is_king_e2_e7 _); [injection Hrun as <- _; exact Hin|].
    destruct (str_first _) as [e|c]; [discriminate|].
    destruct (is_Ra4 _ _).
    + eapply IH; [|exact Hbest|exact Hrun]. exact Hb.
    + cbv zeta in Hrun.
      destruct (analyse _ _ _) as [[x|ev] e]; [discriminate|].
      rewrite (push_pop _ _ Hin) in Hrun.
      eapply IH; [| |exact Hrun]; [reflexivity|].
      intros m. unfold update_best.
      destruct (fst best); [destruct (score_gtb _ _)|]; cbn; auto;
        intros [= <-]; exact Hin.
Qed.

End PushPop.

(** ** The scored part of the loop *)

Section Scoring.
Context `{C : ChessLib} `{N : Numeric} `{E : !EngineLib Board Num} `{R : RandomLib}.

Hypothesis push_pop :
  forall (b : Board) (m : Move), In m (legal_moves b) -> pop (push b m) = Some b.

(** The engine answers every query. *)
Hypothesis analyse_total :
  forall (e : Engine) (b : Board) (limit : Num),
    exists s e', analyse e b limit = (inr s, e').

Lemma in_opening_book_false (fen : string) :
  in_opening_book fen = false ->
  String.eqb fen fen_initial = false
  /\ String.eqb fen fen_e4_e5 = false
  /\ String.eqb fen fen_nf3_nc6 = false.
Proof.
  unfold in_opening_book, opening_book. cbn [existsb fst].
  intros H. repeat (apply orb_false_iff in H as [? H]). auto.
Qed.

Lemma falls_through_inv (b : Board) (m : Move) :
  falls_through b m = true ->
  is_en_passant b m = false
  /\ is_king_e2_e7 (san b m) = false
  /\ exists c, str_first (san b m) = inr c /\ banned b m = is_Ra4 c (san b m).
Proof.
  unfold falls_through, banned. intros H.
  apply andb_true_iff in H as [H H3]. apply andb_true_iff in H as [H1 H2].
  apply negb_true_iff in H1, H2, H3.
  repeat split; [assumption|assumption|].
  destruct (san b m) as [|c s]; [discriminate|].
  exists c. split; reflexivity.
Qed.

(** Running the loop over candidates on which no rule returns: each one that
    passes the banned-move test is pushed, scored by one engine query and
    popped; the loop goes on with the rest, the board restored and the best
    pair updated in order. *)
Lemma search_loop_scores (st : Num) (b : Board) (pre : list Move) :
  Forall (fun m => In m (legal_moves b) /\ falls_through b m = true) pre ->
  (pre <> [] -> in_opening_book (board_fen b) = false) ->
  forall rest best w,
    board w = b ->
    exists scored e evs,
      map fst scored = scored_candidates b pre
      /\ oracle_calls evs = map (query_of b (num_sub st float_0_01)) scored
      /\ stack_discipline 0 evs = true
      /\ search_loop st (pre ++ rest) best w
         = search_loop st rest (select_best best scored)
             (mkWorld _ _ _ _ b e (rng w) (trace w ++ evs)).
Proof.
  induction 1 as [|move pre [Hin Hft] _ IH]; intros Hbook rest best w Hb.
  - exists [], (engine w), []. cbn. rewrite app_nil_r.
    repeat split. destruct w; cbn in *. subst. reflexivity.
  - destruct (in_opening_book_false _ (Hbook ltac:(discriminate)))
      as (H1 & H2 & H3).
    destruct (falls_through_inv _ _ Hft) as (Hep & Hk & c & Hc & Hban).
    cbn [app]. rewrite search_loop_cons. rewrite Hb, Hep, H1, H2, H3, Hk, Hc.
    rewrite <- Hban. clear Hban.
    assert (Hsc : scored_candidates b (move :: pre)
                  = if banned b move then scored_candidates b pre
                    else move :: scored_candidates b pre).
    { unfold scored_candidates. cbn [List.filter].
      destruct (banned b move); reflexivity. }
    destruct (banned b move).
    + destruct (IH (fun _ => Hbook ltac:(discriminate)) rest best
                  (emit (EvPrint "I saw Ra4, I just didn't like it") w) Hb)
        as (scored & e & evs & Hs & Hq & Hsd & Hrun).
      exists scored, e, (EvPrint "I saw Ra4, I just didn't like it" :: evs).
      repeat split; [congruence|exact Hq|exact Hsd|].
      rewrite Hrun. cbn. rewrite <- app_assoc. reflexivity.
    + cbv zeta.
      destruct (analyse_total (engine w) (push b move) (num_sub st float_0_01))
        as (s & e1 & Ha).
      rewrite Ha, (push_pop _ _ Hin).
      match goal with
      | |- context [search_loop st (pre ++ rest) ?bst ?w0] =>
          destruct (IH (fun _ => Hbook ltac:(discriminate)) rest bst w0 eq_refl)
            as (scored & e & evs & Hs & Hq & Hsd & Hrun)
      end.
      exists ((move, s) :: scored), e,
        (EvPush move :: EvAnalyse (push b move) (num_sub st float_0_01) (inr s)
           :: EvPop :: evs).
      repeat split.
      * rewrite Hsc. cbn [map fst]. rewrite Hs. reflexivity.
      * cbn. rewrite Hq. reflexivity.
      * cbn. exact Hsd.
      * rewrite Hrun. cbn. rewrite <- !app_assoc. reflexivity.
Qed.

End Scoring.

(** ** The selection among scored candidates *)

Section Selection.
Context `{C : ChessLib} `{N : Numeric} `{E : !EngineLib Board Num}.

(** [>] on scores is a strict weak order. *)
Hypothesis score_gt_irrefl : forall a, score_gtb a a = false.
Hypothesis score_gt_trans :
  forall a b c, score_gtb a b = true -> score_gtb b c = true -> score_gtb a c = true.
Hypothesis score_gt_negtrans :
  forall a b c, score_gtb a c = true -> score_gtb a b = true \/ score_gtb b c = true.

Lemma score_gt_asym (a b : Score) : score_gtb a b = true -> score_gtb b a = false.
Proof.
  intros Hab. destruct (score_gtb b a) eqn:Hba; [|reflexivity].
  rewrite <- (score_gt_irrefl a). symmetry. eapply score_gt_trans; eassumption.
Qed.

Lemma selected_step (done : list (Move * Score)) best (c : Move * Score) :
  selected done best ->
  selected (done ++ [c]) (update_best best (fst c) (snd c)).
Proof.
  destruct c as [mc sc]. cbn [fst snd].
  intros [[-> ->]|(before & m & s & after & -> & -> & Hbefore & Hafter)].
  - right. exists [], mc, sc, []. cbn. auto.
  - right. unfold update_best. cbn [fst].
    destruct (score_gtb s sc) eqn:Hgt.
    + exists (before ++ (m, s) :: after), mc, sc, [].
      repeat split; [|constructor].
      rewrite List.Forall_forall in Hbefore, Hafter.
      rewrite List.Forall_forall. intros x Hx.
      apply in_app_or in Hx as [Hx|[<-|Hx]].
      * eapply score_gt_trans; [apply Hbefore; exact Hx|exact Hgt].
      * exact Hgt.
      * destruct (score_gt_negtrans _ (snd x) _ Hgt) as [Hsx|Hxc]; [|exact Hxc].
        rewrite (Hafter x Hx) in Hsx. discriminate.
    + exists before, m, s, (after ++ [(mc, sc)]).
      repeat split.
      * rewrite <- app_assoc. reflexivity.
      * exact Hbefore.
      * apply List.Forall_app. split; [exact Hafter|].
        constructor; [exact Hgt|constructor].
Qed.

Lemma selected_all (todo done : list (Move * Score)) best :
  selected done best ->
  selected (done ++ todo) (select_best best todo).
Proof.
  revert done best. induction todo as [|c todo IH]; intros done best Hsel.
  - rewrite app_nil_r. exact Hsel.
  - cbn [select_best fold_left].
    replace (done ++ c :: todo) with ((done ++ [c]) ++ todo)
      by (rewrite <- app_assoc; reflexivity).
    apply IH. apply selected_step. exact Hsel.
Qed.

(** The loop's choice is the earliest candidate with an unbeaten score. *)
Lemma select_best_earliest (scored : list (Move * Score)) :
  earliest_best scored (py_move (snd (select_best (None, None) scored))).
Proof.
  assert (Hsel : selected ([] ++ scored) (select_best (None, None) scored)).
  { apply selected_all. left. auto. }
  cbn [app] in Hsel.
  destruct Hsel as [[-> ->]|(before & m & s & after & Heq & -> & Hbefore & Hafter)].
  - cbn. reflexivity.
  - cbn. exists before, s, after. repeat split; try assumption.
    rewrite Heq. apply List.Forall_app. split.
    + eapply List.Forall_impl; [|exact Hbefore]. intros x Hx. cbn in Hx.
      apply score_gt_asym. exact Hx.
    + constructor; [apply score_gt_irrefl|exact Hafter].
Qed.

End Selection.

(** ** The concrete collaborators meet the contracts *)

Lemma tb_push_pop (b : TBoard) (m : TMove) :
  In m (legal_moves b) -> pop (push b m) = Some b.
Proof. intros _. destruct b. reflexivity. Qed.

Lemma scripted_analyse_total (e : nat) (b : TBoard) (limit : Q) :
  exists s e', analyse e b limit = (inr s, e').
Proof. eexists _, _. reflexivity. Qed.

Lemma Zgtb_irrefl (a : Z) : Z.gtb a a = false.
Proof. destruct (Z.gtb_spec a a); [lia|reflexivity]. Qed.

Lemma Zgtb_trans (a b c : Z) :
  Z.gtb a b = true -> Z.gtb b c = true -> Z.gtb a c = true.
Proof.
  destruct (Z.gtb_spec a b), (Z.gtb_spec b c), (Z.gtb_spec a c);
    intros; try discriminate; try reflexivity; lia.
Qed.

Lemma Zgtb_negtrans (a b c : Z) :
  Z.gtb a c = true -> Z.gtb a b = true \/ Z.gtb b c = true.
Proof.
  destruct (Z.gtb_spec a b), (Z.gtb_spec b c), (Z.gtb_spec a c);
    intros; try discriminate; auto; lia.
Qed.

Lemma counter_randbelow_lt (g n : nat) : 0 < n -> fst (randbelow g n) < n.
Proof. intros Hn. cbn. apply Nat.mod_upper_bound. lia. Qed.

(** ** [Anarchy.search] as a whole *)

Section SearchFacts.
Context `{C : ChessLib} `{N : Numeric} `{E : !EngineLib Board Num} `{R : RandomLib}.

Lemma Anarchy_search_eq (tl : TimeLeft Num Limit) (w : World) :
  Anarchy_search tl w =
  match search_time tl (length (legal_moves (board w))) with
  | inr st => search_loop st (legal_moves (board w)) (None, None) w
  | inl e => (inl e, w)
  end.
Proof.
  unfold Anarchy_search, bind, get_board, lift.
  destruct (search_time _ _); reflexivity.
Qed.

(** With a legal move to divide by, the time adjustment does not fail. *)
Lemma search_time_ok (tl : TimeLeft Num Limit) (n : nat) :
  n <> 0 -> exists st, search_time tl n = inr st.
Proof.
  intros Hn. unfold search_time. destruct tl as [t|l]; [|eauto].
  destruct (num_gtb _ _); [|eauto].
  destruct (Nat.eqb_spec n 0); [contradiction|eauto].
Qed.

Lemma search_time_millis (T : Num) (n : nat) :
  n <> 0 -> search_time (Millis T) n = inr (shrink_law T n).
Proof.
  intros Hn. unfold search_time, shrink_law. cbv zeta.
  destruct (num_gtb _ _); [|reflexivity].
  destruct (Nat.eqb_spec n 0); [contradiction|reflexivity].
Qed.

Lemma length_not_nil {A} (l : list A) : l <> [] -> length l <> 0.
Proof. destruct l; [congruence|discriminate]. Qed.

(** A notation that the banned-move test catches is none of the four king
    notations. *)
Lemma banned_not_king (b : Board) (m : Move) :
  banned b m = true -> is_king_e2_e7 (san b m) = false.
Proof.
  unfold banned, is_Ra4. destruct (san b m) as [|c s]; [discriminate|].
  cbn [str_first]. intros H. apply andb_true_iff in H as [Hc _].
  apply Ascii.eqb_eq in Hc. subst c. reflexivity.
Qed.

Lemma banned_inv (b : Board) (m : Move) :
  banned b m = true ->
  exists c, str_first (san b m) = inr c /\ is_Ra4 c (san b m) = true.
Proof.
  unfold banned. destruct (str_first (san b m)) as [e|c]; [discriminate|].
  intros H. exists c. auto.
Qed.

(** Candidates that are all caught by the banned-move test: the loop prints
    its line for each and returns the incumbent. *)
Lemma search_loop_all_banned (st : Num) (moves : list Move) :
  forall best w,
    Forall (fun m => is_en_passant (board w) m = false) moves ->
    (moves <> [] -> in_opening_book (board_fen (board w)) = false) ->
    Forall (fun m => banned (board w) m = true) moves ->
    search_loop st moves best w
    = (inr (py_move (snd best)),
       mkWorld _ _ _ _ (board w) (engine w) (rng w)
         (trace w
          ++ repeat (EvPrint "I saw Ra4, I just didn't like it") (length moves))).
Proof.
  induction moves as [|move rest IH]; intros best w Hep Hbook Hban.
  - cbn. rewrite app_nil_r. destruct w; reflexivity.
  - inversion Hep as [|? ? Hep1 Hep2]; subst.
    inversion Hban as [|? ? Hban1 Hban2]; subst.
    assert (Hb : in_opening_book (board_fen (board w)) = false)
      by (apply Hbook; discriminate).
    unfold in_opening_book, opening_book in Hb. cbn [existsb fst] in Hb.
    apply orb_false_iff in Hb as [H1 Hb].
    apply orb_false_iff in Hb as [H2 Hb].
    apply orb_false_iff in Hb as [H3 _].
    destruct (banned_inv _ _ Hban1) as (c & Hc & HR).
    rewrite search_loop_cons, Hep1, H1, H2, H3, (banned_not_king _ _ Hban1), Hc, HR.
    rewrite IH.
    + cbn. rewrite <- app_assoc. reflexivity.
    + exact Hep2.
    + intros _. unfold in_opening_book, opening_book. cbn [existsb fst emit board].
      rewrite H1, H2, H3. reflexivity.
    + exact Hban2.
Qed.

End SearchFacts.

(** ** The strategies return legal moves *)

Section LegalResults.
Context `{C : ChessLib} `{N : Numeric} `{E : !EngineLib Board Num} `{R : RandomLib}.

(** The contract of [random._randbelow]. *)
Hypothesis randbelow_lt :
  forall (g : Rng) (n : nat), 0 < n -> fst (randbelow g n) < n.

Hypothesis push_pop :
  forall (b : Board) (m : Move), In m (legal_moves b) -> pop (push b m) = Some b.

Lemma random_choice_In {A} (seq : list A) (w : World) :
  seq <> [] ->
  exists x w', random_choice seq w = (inr x, w')
               /\ In x seq /\ board w' = board w.
Proof.
  intros Hne. destruct seq as [|a l]; [congruence|].
  unfold random_choice.
  pose proof (randbelow_lt (rng w) (length (a :: l))) as Hlt.
  destruct (randbelow (rng w) (length (a :: l))) as [i g]. cbn [fst] in Hlt.
  assert (Hi : i < length (a :: l)) by (apply Hlt; cbn; lia).
  destruct (nth_error (a :: l) i) as [x|] eqn:Hn.
  - exists x, (set_rng g w). split; [reflexivity|]. split; [|reflexivity].
    eapply nth_error_In. exact Hn.
  - apply nth_error_None in Hn. lia.
Qed.

(** [RandomMove.search] returns one of the legal moves. *)
Lemma RandomMove_search_legal (w : World) :
  legal_moves (board w) <> [] ->
  exists m w', RandomMove_search w = (inr (RMove m), w')
               /\ In m (legal_moves (board w)) /\ board w' = board w.
Proof.
  intros Hne.
  destruct (random_choice_In (legal_moves (board w)) w Hne)
    as (m & w' & Hc & Hin & Hb).
  exists m, w'. split; [|auto].
  unfold RandomMove_search, bind, get_board, ret. rewrite Hc. reflexivity.
Qed.

Lemma first_of_sort_legal (key : Move -> string) (w : World) :
  legal_moves (board w) <> [] ->
  exists m, first_item (sort_by key (legal_moves (board w))) w = (inr m, w)
            /\ In m (legal_moves (board w)).
Proof.
  intros Hne.
  destruct (sort_by key (legal_moves (board w))) as [|m l] eqn:Hs.
  - apply sort_by_nil_inv in Hs. contradiction.
  - exists m. split; [reflexivity|].
    apply (sort_by_In key). rewrite Hs. left. reflexivity.
Qed.

(** [Alphabetical.search] returns one of the legal moves. *)
Lemma Alphabetical_search_legal (w : World) :
  legal_moves (board w) <> [] ->
  exists m, Alphabetical_search w = (inr (RMove m), w)
            /\ In m (legal_moves (board w)).
Proof.
  intros Hne.
  destruct (first_of_sort_legal (san (board w)) w Hne) as (m & Hf & Hin).
  exists m. split; [|exact Hin].
  unfold Alphabetical_search, bind, get_board, ret. cbv zeta.
  rewrite Hf. reflexivity.
Qed.

(** [FirstMove.search] returns one of the legal moves. *)
Lemma FirstMove_search_legal (w : World) :
  legal_moves (board w) <> [] ->
  exists m, FirstMove_search w = (inr (RMove m), w)
            /\ In m (legal_moves (board w)).
Proof.
  intros Hne.
  destruct (first_of_sort_legal uci w Hne) as (m & Hf & Hin).
  exists m. split; [|exact Hin].
  unfold FirstMove_search, bind, get_board, ret. cbv zeta.
  rewrite Hf. reflexivity.
Qed.

(** What [Anarchy.search] returns is a legal move, [None], or the reply of
    the opening book for the placement, whoever is to move. *)
Lemma Anarchy_search_result (tl : TimeLeft Num Limit) (w w' : World)
    (r : Result Move) :
  Anarchy_search tl w = (inr r, w') ->
  match r with
  | RMove m => In m (legal_moves (board w))
  | RStr s => In (board_fen (board w), s) opening_book
  | RNone => True
  end.
Proof.
  rewrite Anarchy_search_eq.
  destruct (search_time _ _) as [e|st]; [discriminate|].
  apply (search_loop_result push_pop st (board w)).
  - apply List.Forall_forall. auto.
  - reflexivity.
  - cbn. discriminate.
Qed.

End LegalResults.

(** C1.  Every example strategy should return a member of the legal moves.
    [Anarchy.search] does not on the opening book: after 1. e3 e5 2. e4 the
    placement is that of the second snapshot with Black to move; the search
    returns the string [g1f3] on the first candidate, and no legal move of
    Black has that coordinate notation. *)
Theorem Anarchy_book_reply_illegal_for_black :
  let w := start pos_e3_e5_e4 in
  legal_moves (board w) <> []
  /\ turn (board w) = false
  /\ fst (Anarchy_search (Millis 60000%Q) w) = inr (RStr "g1f3")
  /\ ~ legal_result (board w) (RStr "g1f3").
Proof.
  cbv zeta. repeat split.
  - discriminate.
  - intros (m & Hin & Hu). cbn in Hin.
    repeat (destruct Hin as [<-|Hin]; [discriminate Hu|]).
    exact Hin.
Qed.

(** ** Properties of [Anarchy.search] *)

Section AnarchyClaims.
Context `{C : ChessLib} `{N : Numeric} `{E : !EngineLib Board Num} `{R : RandomLib}.

Hypothesis push_pop :
  forall (b : Board) (m : Move), In m (legal_moves b) -> pop (push b m) = Some b.

Hypothesis analyse_total :
  forall (e : Engine) (b : Board) (limit : Num),
    exists s e', analyse e b limit = (inr s, e').

Hypothesis score_gt_irrefl : forall a, score_gtb a a = false.
Hypothesis score_gt_trans :
  forall a b c, score_gtb a b = true -> score_gtb b c = true -> score_gtb a c = true.
Hypothesis score_gt_negtrans :
  forall a b c, score_gtb a c = true -> score_gtb a b = true \/ score_gtb b c = true.

(** C3.  For a numeric budget of [T] milliseconds and [n] legal moves
    ([n] is not zero: there is a move to search), the per-move time of
    [Anarchy.search] is that of the shrink law: [(T/10)/n], with [T] in
    seconds, when [n * 0.1 > T/10], and [0.1] otherwise; and every engine
    query of the call is made with that time less the margin [0.01]. *)
Theorem per_move_time_shrink_law (w : World) (T : Num) :
  legal_moves (board w) <> [] ->
  search_time (Millis T) (length (legal_moves (board w)))
  = inr (shrink_law T (length (legal_moves (board w))))
  /\ exists evs,
       trace (snd (Anarchy_search (Millis T) w)) = trace w ++ evs
       /\ Forall (fun q => snd (fst q)
                           = num_sub (shrink_law T (length (legal_moves (board w))))
                                     float_0_01)
                 (oracle_calls evs).
Proof.
  intros Hne. apply length_not_nil in Hne.
  split; [apply search_time_millis; exact Hne|].
  rewrite Anarchy_search_eq, (search_time_millis _ _ Hne).
  apply search_loop_limits.
Qed.

(** C6.  When [Anarchy.search] returns, by a rule or after scoring every
    candidate, the board is the one it was called with, and in between every
    push was followed by its pop before any other push. *)
Theorem search_restores_position (tl : TimeLeft Num Limit) (w w' : World)
    (r : Result Move) :
  Anarchy_search tl w = (inr r, w') ->
  board w' = board w
  /\ exists evs, trace w' = trace w ++ evs /\ stack_discipline 0 evs = true.
Proof.
  rewrite Anarchy_search_eq.
  destruct (search_time _ _) as [e|st]; [discriminate|].
  apply (search_loop_restores push_pop st (board w)).
  - apply List.Forall_forall. auto.
  - reflexivity.
Qed.

(** C7.  When the placement is one of the three opening snapshots (and, as
    in those placements, there are legal moves and none is an en-passant
    capture), [Anarchy.search] returns the reply of the book and the engine is
    not queried. *)
Theorem opening_book_reply (tl : TimeLeft Num Limit) (w : World) (reply : string) :
  In (board_fen (board w), reply) opening_book ->
  legal_moves (board w) <> [] ->
  Forall (fun m => is_en_passant (board w) m = false) (legal_moves (board w)) ->
  exists w',
    Anarchy_search tl w = (inr (RStr reply), w')
    /\ board w' = board w /\ engine w' = engine w
    /\ exists evs, trace w' = trace w ++ evs /\ oracle_calls evs = [].
Proof.
  intros Hbook Hne Hep.
  rewrite Anarchy_search_eq.
  destruct (search_time_ok tl _ (length_not_nil _ Hne)) as (st & ->).
  destruct (legal_moves (board w)) as [|move rest]; [congruence|].
  inversion Hep as [|? ? Hep1 _]; subst.
  rewrite search_loop_cons, Hep1.
  cbn in Hbook. destruct Hbook as [Hb|[Hb|[Hb|[]]]]; injection Hb as Hfen <-;
    rewrite <- Hfen; cbn [String.eqb]; rewrite ?String.eqb_refl.
  - eexists. repeat split. exists [EvPrint "e4 best by test"]. split; reflexivity.
  - exists w. repeat split. exists []. rewrite app_nil_r. split; reflexivity.
  - exists w. repeat split. exists []. rewrite app_nil_r. split; reflexivity.
Qed.

(** C10.  With legal moves none of which is an en-passant capture, a
    placement outside the opening book, and every notation caught by the
    banned-move test (so none is a king notation), [Anarchy.search] returns
    [None]; the engine is not queried. *)
Theorem all_banned_returns_None (tl : TimeLeft Num Limit) (w : World) :
  legal_moves (board w) <> [] ->
  Forall (fun m => is_en_passant (board w) m = false) (legal_moves (board w)) ->
  in_opening_book (board_fen (board w)) = false ->
  Forall (fun m => banned (board w) m = true) (legal_moves (board w)) ->
  exists w',
    Anarchy_search tl w = (inr RNone, w')
    /\ board w' = board w /\ engine w' = engine w
    /\ exists evs, trace w' = trace w ++ evs /\ oracle_calls evs = [].
Proof.
  intros Hne Hep Hbook Hban.
  rewrite Anarchy_search_eq.
  destruct (search_time_ok tl _ (length_not_nil _ Hne)) as (st & ->).
  rewrite (search_loop_all_banned st _ (None, None) w Hep (fun _ => Hbook) Hban).
  eexists. repeat split. eexists. split; [reflexivity|].
  induction (length (legal_moves (board w))); [reflexivity|assumption].
Qed.

(** C5.  When no rule returns (there are legal moves, none is an en-passant
    capture or has one of the four king notations, the placement is outside
    the opening book), [Anarchy.search] queries the engine once for each
    candidate that passes the banned-move test, in order, and returns the
    earliest of them whose score no other beats: every earlier score is
    strictly greater, no later score is strictly smaller (the score is
    relative to the opponent, who is to move after the candidate, so smaller
    is better); it returns [None] when no candidate was scored. *)
Theorem scored_fallback_earliest_best (tl : TimeLeft Num Limit) (w : World) :
  legal_moves (board w) <> [] ->
  Forall (fun m => falls_through (board w) m = true) (legal_moves (board w)) ->
  in_opening_book (board_fen (board w)) = false ->
  exists st r w' evs scored,
    search_time tl (length (legal_moves (board w))) = inr st
    /\ Anarchy_search tl w = (inr r, w')
    /\ board w' = board w
    /\ trace w' = trace w ++ evs
    /\ map fst scored = scored_candidates (board w) (legal_moves (board w))
    /\ oracle_calls evs = map (query_of (board w) (num_sub st float_0_01)) scored
    /\ earliest_best scored r.
Proof.
  intros Hne Hft Hbook.
  destruct (search_time_ok tl _ (length_not_nil _ Hne)) as (st & Hst).
  assert (Hpre : Forall (fun m => In m (legal_moves (board w))
                                  /\ falls_through (board w) m = true)
                        (legal_moves (board w))).
  { rewrite List.Forall_forall in Hft. apply List.Forall_forall. auto. }
  destruct (search_loop_scores push_pop analyse_total st (board w) _ Hpre
              (fun _ => Hbook) [] (None, None) w eq_refl)
    as (scored & e & evs & Hs & Hq & _ & Hrun).
  rewrite app_nil_r in Hrun.
  exists st, (py_move (snd (select_best (None, None) scored))).
  eexists. exists evs, scored.
  split; [exact Hst|].
  split; [rewrite Anarchy_search_eq, Hst, Hrun; reflexivity|].
  repeat split; try assumption.
  apply select_best_earliest; assumption.
Qed.

(** C2, as the code has it.  When exactly one candidate is an en-passant
    capture, no candidate enumerated before it has one of the four king
    notations and, unless it is enumerated first, the placement is outside
    the opening book, [Anarchy.search] returns the en-passant capture; the
    engine is queried once for each candidate enumerated before it that
    passes the banned-move test (not at all when it is enumerated first), and
    for no candidate after it. *)
Theorem en_passant_after_earlier_candidates (tl : TimeLeft Num Limit) (w : World)
    (before after : list Move) (m : Move) :
  legal_moves (board w) = before ++ m :: after ->
  is_en_passant (board w) m = true ->
  Forall (fun x => is_en_passant (board w) x = false) (before ++ after) ->
  Forall (fun x => falls_through (board w) x = true) before ->
  (before <> [] -> in_opening_book (board_fen (board w)) = false) ->
  exists w' evs,
    Anarchy_search tl w = (inr (RMove m), w')
    /\ board w' = board w
    /\ trace w' = trace w ++ evs
    /\ map (fun q => fst (fst q)) (oracle_calls evs)
       = map (push (board w)) (scored_candidates (board w) before).
Proof.
  intros Hlegal Hep _ Hft Hbook.
  assert (Hne : legal_moves (board w) <> []).
  { rewrite Hlegal. destruct before; discriminate. }
  destruct (search_time_ok tl _ (length_not_nil _ Hne)) as (st & Hst).
  assert (Hpre : Forall (fun x => In x (legal_moves (board w))
                                  /\ falls_through (board w) x = true) before).
  { rewrite List.Forall_forall in Hft. apply List.Forall_forall.
    intros x Hx. split; [|auto]. rewrite Hlegal. apply in_or_app. auto. }
  destruct (search_loop_scores push_pop analyse_total st (board w) _ Hpre
              Hbook (m :: after) (None, None) w eq_refl)
    as (scored & e & evs & Hs & Hq & _ & Hrun).
  rewrite Anarchy_search_eq, Hst, Hlegal, Hrun, search_loop_cons.
  cbn [board]. rewrite Hep.
  eexists. exists (evs ++ [EvPrint "en passant is forced"]).
  split; [reflexivity|]. split; [reflexivity|].
  split; [cbn; rewrite app_assoc; reflexivity|].
  rewrite oracle_calls_app, Hq. cbn. rewrite app_nil_r, <- Hs.
  rewrite !map_map. reflexivity.
Qed.

End AnarchyClaims.

(** ** The banned-move test in the loop *)

Section BannedMove.
Context `{C : ChessLib} `{N : Numeric} `{E : !EngineLib Board Num} `{R : RandomLib}.

Hypothesis push_pop :
  forall (b : Board) (m : Move), In m (legal_moves b) -> pop (push b m) = Some b.

(** A candidate caught by the test [s[0] == "R" and s[-2:] == "a4"] is not
    pushed (so not scored) and not returned, whatever else the loop does, and
    the loop goes on to the candidates after it. *)
Lemma banned_candidate_skipped (st : Num) (b : Board) (m : Move)
    (moves : list Move) :
  banned b m = true ->
  is_en_passant b m = false ->
  Forall (fun x => In x (legal_moves b)) moves ->
  forall best w res w',
    board w = b ->
    snd best <> Some m ->
    search_loop st moves best w = (res, w') ->
    res <> inr (RMove m)
    /\ exists evs, trace w' = trace w ++ evs /\ ~ In (EvPush m) evs.
Proof.
  intros Hban Hep. induction 1 as [|move rest Hin _ IH];
    intros best w res w' Hb Hbest Hrun.
  - cbn in Hrun. injection Hrun as <- <-. split.
    + destruct (snd best); cbn; congruence.
    + exists []. rewrite app_nil_r. auto.
  - rewrite search_loop_cons in Hrun. rewrite Hb in Hrun.
    destruct (is_en_passant b move) eqn:Hepm.
    { injection Hrun as <- <-. split; [intros [= ->]; congruence|].
      eexists. split; [reflexivity|]. intros [Hx|[]]. discriminate. }
    destruct (String.eqb _ fen_initial).
    { injection Hrun as <- <-. split; [discriminate|].
      eexists. split; [reflexivity|]. intros [Hx|[]]. discriminate. }
    destruct (String.eqb _ fen_e4_e5).
    { injection Hrun as <- <-. split; [discriminate|].
      exists []. rewrite app_nil_r. auto. }
    destruct (String.eqb _ fen_nf3_nc6).
    { injection Hrun as <- <-. split; [discriminate|].
      exists []. rewrite app_nil_r. auto. }
    destruct (is_king_e2_e7 (san b move)) eqn:Hk.
    { injection Hrun as <- <-. split.
      - intros [= ->]. rewrite (banned_not_king _ _ Hban) in Hk. discriminate.
      - exists []. rewrite app_nil_r. auto. }
    destruct (str_first (san b move)) as [e|c] eqn:Hc.
    { injection Hrun as <- <-. split; [discriminate|].
      exists []. rewrite app_nil_r. auto. }
    destruct (is_Ra4 c (san b move)) eqn:HR.
    + apply IH in Hrun; [|exact Hb|exact Hbest].
      destruct Hrun as (Hres & evs & Htr & Hno). split; [exact Hres|].
      eexists. split.
      * rewrite Htr. cbn. rewrite <- app_assoc. reflexivity.
      * intros [Hx|Hx]; [discriminate|auto].
    + assert (Hmm : move <> m).
      { intros ->. unfold banned in Hban. rewrite Hc, HR in Hban. discriminate. }
      cbv zeta in Hrun.
      destruct (analyse _ _ _) as [[x|ev] e].
      * injection Hrun as <- <-. split; [discriminate|].
        eexists. split; [reflexivity|].
        intros [Hx|[Hx|[]]]; [congruence|discriminate].
      * rewrite (push_pop _ _ Hin) in Hrun.
        apply IH in Hrun; [|reflexivity|].
        -- destruct Hrun as (Hres & evs & Htr & Hno). split; [exact Hres|].
           eexists. split.
           ++ rewrite Htr. cbn. rewrite <- !app_assoc. reflexivity.
           ++ cbn. intros [Hx|[Hx|[Hx|Hx]]]; try discriminate; [congruence|auto].
        -- unfold update_best.
           destruct (fst best); [destruct (score_gtb _ _)|]; cbn;
             congruence.
Qed.

End BannedMove.

(** C4.  A rook move to a4 should never be scored or returned.  The test of
    the loop looks at the last two characters of the notation, and a move
    that gives check is written with a mark after the square: with the white
    rook on a1 and the black king on h4 the candidate [Ra4+] denotes a rook
    move to a4, passes the test, is pushed and scored, and is returned. *)
Theorem rook_a4_with_check_is_played :
  let w := start pos_rook_check in
  let m := mv "a1a4" "Ra4+" (-560) in
  let res := Anarchy_search (Millis 60000%Q) w in
  In m (legal_moves (board w))
  /\ denotes_rook_to_a4 (san (board w) m) = true
  /\ banned (board w) m = false
  /\ fst res = inr (RMove m)
  /\ map tm_uci (pushed_moves (trace (snd res)))
     = [ "h1h2"; "h1g2"; "h1g1"; "a1a8"; "a1a7"; "a1a6"; "a1a5"; "a1a4";
         "a1a3"; "a1a2"; "a1g1"; "a1f1"; "a1e1"; "a1d1"; "a1c1"; "a1b1" ]
  /\ length (oracle_calls (trace (snd res))) = 16.
Proof.
  cbv zeta. split; [cbn; tauto|].
  split; [reflexivity|]. split; [reflexivity|].
  split; [vm_compute; reflexivity|].
  split; vm_compute; reflexivity.
Qed.

(** ** [MinimalEngine.search_with_ponder] *)

Section Ponder.
Context `{C : ChessLib} `{N : Numeric} `{E : !EngineLib Board Num} `{R : RandomLib}.

(** C9.  [search_with_ponder] is [self.search] on the board with [wtime]
    when White is to move and [btime] otherwise, and the ponder flag: same
    result, same effects, and the increments play no part. *)
Theorem search_with_ponder_delegates
    (search : TimeLeft Num Limit -> bool -> M (Result Move))
    (wtime btime winc binc : TimeLeft Num Limit) (ponder : bool) (w : World) :
  search_with_ponder search wtime btime winc binc ponder w
  = search (if turn (board w) then wtime else btime) ponder w
  /\ forall winc' binc',
       search_with_ponder search wtime btime winc' binc' ponder w
       = search_with_ponder search wtime btime winc binc ponder w.
Proof. split; reflexivity. Qed.

(** Called on the base class, it ends in the exception of
    [MinimalEngine.search]. *)
Example search_with_ponder_base_class
    (wtime btime winc binc : TimeLeft Num Limit) (ponder : bool) (w : World) :
  search_with_ponder MinimalEngine_search wtime btime winc binc ponder w
  = (inl (NotImplementedError "The search method is not implemented"), w).
Proof. reflexivity. Qed.

End Ponder.

(** ** [FillerEngine] *)

Section FillerFacts.
Context `{O : OwnerLib}.

(** The three attributes assigned by [__init__] are found by ordinary
    lookup. *)
Lemma FillerEngine_init_lookup (main_engine name : Value Obj) :
  FillerEngine_init main_engine name !! "id" = Some (VDict {["name" := name]})
  /\ FillerEngine_init main_engine name !! "name" = Some name
  /\ FillerEngine_init main_engine name !! "main_engine" = Some main_engine.
Proof.
  unfold FillerEngine_init. split; [|split].
  - rewrite lookup_insert_ne by discriminate.
    rewrite lookup_insert_ne by discriminate.
    apply lookup_insert_eq.
  - rewrite lookup_insert_ne by discriminate. apply lookup_insert_eq.
  - apply lookup_insert_eq.
Qed.

Lemma FillerEngine_init_lookup_other (main_engine name : Value Obj) (attr : string) :
  attr <> "id" -> attr <> "name" -> attr <> "main_engine" ->
  FillerEngine_init main_engine name !! attr = None.
Proof.
  intros H1 H2 H3. unfold FillerEngine_init.
  rewrite !lookup_insert_ne by congruence. apply lookup_empty.
Qed.

(** C8, as the code has it.  For every attribute name that ordinary lookup
    does not resolve (a name other than [id], [name] and [main_engine], which
    [__init__] assigns, and not an attribute of the class), reading the
    attribute of the filler object yields a callable which, called with any
    positional and keyword arguments, passes the name and the arguments to
    the owner's [notify] and returns its result. *)
Theorem filler_forwards_unresolved_attributes (self : Obj) (name : Value Obj)
    (attr : string) :
  attr <> "id" -> attr <> "name" -> attr <> "main_engine" ->
  type_attr attr = None ->
  exists f,
    getattr (FillerEngine_init (VObj self) name) attr = inr f
    /\ forall args kwargs h, call f args kwargs h = notify self attr args kwargs h.
Proof.
  intros H1 H2 H3 Hty.
  exists (VMethod (VObj self) attr). split; [|reflexivity].
  unfold getattr, FillerEngine_getattr, lookup_attr.
  rewrite (FillerEngine_init_lookup_other _ _ _ H1 H2 H3), Hty.
  destruct (FillerEngine_init_lookup (VObj self) name) as (_ & _ & ->).
  reflexivity.
Qed.

(** The filler object of a strategy, after [MinimalEngine.__init__]: [id]
    holds the engine name, and the other names still forward. *)
Lemma MinimalEngine_engine_attributes (self : Obj) (name engine_name : Value Obj) :
  getattr (MinimalEngine_init_engine self name engine_name) "id"
  = inr (VDict {["name" := engine_name]})
  /\ FillerEngine_getattr (MinimalEngine_init_engine self name engine_name) "ping"
     = inr (VMethod (VObj self) "ping").
Proof.
  unfold getattr, FillerEngine_getattr, lookup_attr, MinimalEngine_init_engine.
  rewrite lookup_insert_eq. split; [reflexivity|].
  rewrite lookup_insert_ne by discriminate.
  destruct (FillerEngine_init_lookup (VObj self) name) as (_ & _ & ->).
  reflexivity.
Qed.

End FillerFacts.

(** C8 as stated fails: reading [id] yields the dictionary that [__init__]
    stored, which is not a callable and forwards nothing. *)
Lemma filler_id_attribute_not_forwarded :
  ~ (forall attr : string,
       exists f,
         getattr (FillerEngine_init (VObj 7) VNone) attr = inr f
         /\ forall args kwargs h, call f args kwargs h = notify 7 attr args kwargs h).
Proof.
  intros H. destruct (H "id") as (f & Hf & Hcall).
  unfold getattr, lookup_attr in Hf.
  destruct (FillerEngine_init_lookup (O := recording_owner) (VObj 7) VNone)
    as (Hid & _ & _).
  rewrite Hid in Hf. injection Hf as <-.
  specialize (Hcall [] [] []). discriminate Hcall.
Qed.

Lemma filler_forwards_unresolved_attributes_witness :
  exists f,
    getattr (FillerEngine_init (VObj 7) (VStr "Anarchy")) "analyse" = inr f
    /\ forall args kwargs h,
         call f args kwargs h = notify 7 "analyse" args kwargs h.
Proof.
  apply (filler_forwards_unresolved_attributes (O := recording_owner)
           7 (VStr "Anarchy") "analyse");
    [discriminate|discriminate|discriminate|reflexivity].
Defined.

(** ** Concrete runs *)

(** C2 as stated fails.  White: Ke1, pawn e5; Black: Kh8, pawn d5 just
    advanced.  Exactly one candidate, the last one, is an en-passant capture;
    the loop first scores [Kf2], then returns [Ke2] by the king rule. *)
Lemma en_passant_preempted_by_king_move :
  let w := start pos_ep_king_e1 in
  let m := ep "e5d6" "exd6" (-120) in
  In m (legal_moves (board w))
  /\ is_en_passant (board w) m = true
  /\ (forall x, In x (legal_moves (board w)) ->
                is_en_passant (board w) x = true -> x = m)
  /\ ~ (exists w', Anarchy_search (Millis 60000%Q) w = (inr (RMove m), w')
                   /\ oracle_calls (trace w') = []).
Proof.
  cbv zeta. split; [cbn; tauto|]. split; [reflexivity|]. split.
  - intros x Hx. cbn in Hx.
    repeat (destruct Hx as [<-|Hx]; [cbn; intros; congruence|]).
    destruct Hx.
  - intros (w' & Hrun & _). vm_compute in Hrun. discriminate Hrun.
Qed.

Example en_passant_position_run :
  let res := Anarchy_search (Millis 60000%Q) (start pos_ep_king_e1) in
  fst res = inr (RMove (mv "e1e2" "Ke2" (-35)))
  /\ length (oracle_calls (trace (snd res))) = 1.
Proof. vm_compute. auto. Qed.

Lemma en_passant_after_earlier_candidates_witness :
  let w := start pos_ep_king_a1 in
  let before := [ mv "a1b2" "Kb2" (-40); mv "a1a2" "Ka2" (-30);
                  mv "a1b1" "Kb1" (-30); mv "e5e6" "e6" (-60) ] in
  let m := ep "e5d6" "exd6" (-120) in
  exists w' evs,
    Anarchy_search (Millis 60000%Q) w = (inr (RMove m), w')
    /\ board w' = board w
    /\ trace w' = trace w ++ evs
    /\ map (fun q => fst (fst q)) (oracle_calls evs)
       = map (push (board w)) (scored_candidates (board w) before).
Proof.
  cbv zeta.
  apply (en_passant_after_earlier_candidates (C := table_chess) (N := rational_numbers)
           (E := scripted_engine) (R := counter_random)
           tb_push_pop scripted_analyse_total
           (Millis 60000%Q) (start pos_ep_king_a1) _ [] _).
  - reflexivity.
  - reflexivity.
  - repeat constructor.
  - repeat constructor.
  - reflexivity.
Defined.

Lemma per_move_time_shrink_law_witness :
  let w := start pos_ep_king_a1 in
  let n := length (legal_moves (board w)) in
  legal_moves (board w) <> []
  /\ search_time (Millis 3000%Q) n = inr (shrink_law 3000%Q n)
  /\ exists evs,
       trace (snd (Anarchy_search (Millis 3000%Q) w)) = trace w ++ evs
       /\ Forall (fun q => snd (fst q) = num_sub (shrink_law 3000%Q n) float_0_01)
                 (oracle_calls evs).
Proof.
  cbv zeta.
  assert (H : legal_moves (board (start pos_ep_king_a1)) <> []) by discriminate.
  split; [exact H|].
  exact (per_move_time_shrink_law (C := table_chess) (N := rational_numbers)
           (E := scripted_engine) (R := counter_random)
           (start pos_ep_king_a1) 3000%Q H).
Defined.

(** Three seconds left and five legal moves: [5 * 0.1 > 0.3], so each
    candidate gets [0.3 / 5] seconds. *)
Example shrink_law_three_seconds :
  Qeq (shrink_law 3000%Q 5) (3 # 50) /\ Qeq (shrink_law 60000%Q 5) (1 # 10).
Proof. split; reflexivity. Qed.

Lemma scored_fallback_earliest_best_witness :
  let w := start pos_rook_check in
  exists st r w' evs scored,
    search_time (Millis 60000%Q) (length (legal_moves (board w))) = inr st
    /\ Anarchy_search (Millis 60000%Q) w = (inr r, w')
    /\ board w' = board w
    /\ trace w' = trace w ++ evs
    /\ map fst scored = scored_candidates (board w) (legal_moves (board w))
    /\ oracle_calls evs = map (query_of (board w) (num_sub st float_0_01)) scored
    /\ earliest_best scored r.
Proof.
  cbv zeta.
  apply (scored_fallback_earliest_best (C := table_chess) (N := rational_numbers)
           (E := scripted_engine) (R := counter_random)
           tb_push_pop scripted_analyse_total
           Zgtb_irrefl Zgtb_trans Zgtb_negtrans
           (Millis 60000%Q) (start pos_rook_check)).
  - discriminate.
  - repeat constructor.
  - reflexivity.
Defined.

(** The two best scores of that position are equal; the earlier candidate
    is the one returned. *)
Example tie_keeps_earlier_candidate :
  fst (Anarchy_search (Millis 60000%Q) (start pos_rook_check))
  = inr (RMove (mv "a1a4" "Ra4+" (-560)))
  /\ In (mv "a1g1" "Rg1" (-560)) (legal_moves (board (start pos_rook_check))).
Proof. split; [vm_compute; reflexivity|cbn; tauto]. Qed.

Lemma search_restores_position_witness :
  let w := start pos_rook_check in
  let res := Anarchy_search (Millis 60000%Q) w in
  board (snd res) = board w
  /\ exists evs, trace (snd res) = trace w ++ evs /\ stack_discipline 0 evs = true.
Proof.
  cbv zeta.
  apply (search_restores_position (C := table_chess) (N := rational_numbers)
           (E := scripted_engine) (R := counter_random)
           tb_push_pop (Millis 60000%Q)
           (start pos_rook_check) _ (RMove (mv "a1a4" "Ra4+" (-560)))).
  vm_compute. reflexivity.
Defined.

Lemma opening_book_reply_witness :
  let w := start pos_initial in
  exists w',
    Anarchy_search (Millis 60000%Q) w = (inr (RStr "e2e4"), w')
    /\ board w' = board w /\ engine w' = engine w
    /\ exists evs, trace w' = trace w ++ evs /\ oracle_calls evs = [].
Proof.
  cbv zeta.
  apply (opening_book_reply (C := table_chess) (N := rational_numbers)
           (E := scripted_engine) (R := counter_random)
           (Millis 60000%Q) (start pos_initial) "e2e4").
  - left. reflexivity.
  - discriminate.
  - repeat constructor.
Defined.

Lemma all_banned_returns_None_witness :
  let w := start pos_only_Ra4 in
  exists w',
    Anarchy_search (Millis 60000%Q) w = (inr RNone, w')
    /\ board w' = board w /\ engine w' = engine w
    /\ exists evs, trace w' = trace w ++ evs /\ oracle_calls evs = [].
Proof.
  cbv zeta.
  apply (all_banned_returns_None (C := table_chess) (N := rational_numbers)
           (E := scripted_engine) (R := counter_random)
           (Millis 60000%Q) (start pos_only_Ra4)).
  - discriminate.
  - repeat constructor.
  - reflexivity.
  - repeat constructor.
Defined.

(** * Further properties of the strategies *)

(** ** The order on notations *)

Lemma ascii_compare_refl (a : ascii) : Ascii.compare a a = Eq.
Proof. unfold Ascii.compare. apply N.compare_refl. Qed.

Lemma ascii_compare_lt_trans (a b c : ascii) :
  Ascii.compare a b = Lt -> Ascii.compare b c = Lt -> Ascii.compare a c = Lt.
Proof.
  unfold Ascii.compare. rewrite !N.compare_lt_iff. apply N.lt_trans.
Qed.

Lemma string_compare_lt_trans (s1 : string) :
  forall s2 s3,
    String.compare s1 s2 = Lt -> String.compare s2 s3 = Lt ->
    String.compare s1 s3 = Lt.
Proof.
  induction s1 as [|c1 s1 IH]; intros [|c2 s2] [|c3 s3]; cbn;
    try discriminate; try reflexivity.
  destruct (Ascii.compare c1 c2) eqn:H12; try discriminate;
    destruct (Ascii.compare c2 c3) eqn:H23; try discriminate; intros Ha Hb.
  - apply Ascii.compare_eq_iff in H12, H23. subst.
    rewrite ascii_compare_refl. eapply IH; eassumption.
  - apply Ascii.compare_eq_iff in H12. subst. rewrite H23. reflexivity.
  - apply Ascii.compare_eq_iff in H23. subst. rewrite H12. reflexivity.
  - rewrite (ascii_compare_lt_trans _ _ _ H12 H23). reflexivity.
Qed.

Lemma string_leb_trans (s1 s2 s3 : string) :
  String.leb s1 s2 = true -> String.leb s2 s3 = true -> String.leb s1 s3 = true.
Proof.
  unfold String.leb.
  destruct (String.compare s1 s2) eqn:H12; try discriminate;
    destruct (String.compare s2 s3) eqn:H23; try discriminate; intros _ _.
  - apply String.compare_eq_iff in H12. subst. rewrite H23. reflexivity.
  - apply String.compare_eq_iff in H12. subst. rewrite H23. reflexivity.
  - apply String.compare_eq_iff in H23. subst. rewrite H12. reflexivity.
  - rewrite (string_compare_lt_trans _ _ _ H12 H23). reflexivity.
Qed.

Lemma string_leb_refl (s : string) : String.leb s s = true.
Proof.
  unfold String.leb. destruct (String.compare s s) eqn:H; try reflexivity.
  pose proof (String.compare_antisym s s) as Ha. rewrite H in Ha. discriminate.
Qed.

Lemma string_ltb_leb (s1 s2 : string) :
  String.ltb s1 s2 = true -> String.leb s1 s2 = true.
Proof.
  unfold String.ltb, String.leb. destruct (String.compare s1 s2); auto.
Qed.

Lemma string_leb_false_ltb (s1 s2 : string) :
  String.leb s1 s2 = false -> String.ltb s2 s1 = true.
Proof.
  unfold String.ltb, String.leb. rewrite (String.compare_antisym s2 s1).
  destruct (String.compare s1 s2); cbn; congruence.
Qed.

(** The first element after a stable sort by key is the earliest element of
    the list with the least key. *)
Lemma sort_by_head {A} (key : A -> string) (l : list A) :
  l <> [] ->
  exists m rest before after,
    sort_by key l = m :: rest
    /\ l = before ++ m :: after
    /\ Forall (fun x => String.ltb (key m) (key x) = true) before
    /\ Forall (fun x => String.leb (key m) (key x) = true) after.
Proof.
  induction l as [|x l IH]; [congruence|]. intros _. cbn [sort_by].
  destruct l as [|y l'].
  - exists x, [], [], []. cbn. auto.
  - destruct IH as (m & rest & before & after & Hs & Hl & Hb & Ha);
      [discriminate|].
    rewrite Hs. cbn [insert_by].
    destruct (String.leb (key x) (key m)) eqn:Hxm.
    + exists x, (m :: rest), [], (y :: l'). repeat split; [constructor|].
      rewrite Hl. apply List.Forall_app. split; [|constructor].
      * eapply List.Forall_impl; [|exact Hb]. cbn. intros z Hz.
        eapply string_leb_trans; [exact Hxm|]. apply string_ltb_leb. exact Hz.
      * exact Hxm.
      * eapply List.Forall_impl; [|exact Ha]. cbn. intros z Hz.
        eapply string_leb_trans; eassumption.
    + exists m, (insert_by key x rest), (x :: before), after.
      repeat split.
      * rewrite Hl. reflexivity.
      * constructor; [|exact Hb]. apply string_leb_false_ltb. exact Hxm.
      * exact Ha.
Qed.

(** ** [RandomMove], [Alphabetical], [FirstMove] *)

Section SimpleStrategies.
Context `{C : ChessLib} `{N : Numeric} `{E : !EngineLib Board Num} `{R : RandomLib}.

Hypothesis randbelow_lt :
  forall (g : Rng) (n : nat), 0 < n -> fst (randbelow g n) < n.

Lemma first_of_sort_least (key : Move -> string) (w : World) :
  legal_moves (board w) <> [] ->
  exists m before after,
    first_item (sort_by key (legal_moves (board w))) w = (inr m, w)
    /\ legal_moves (board w) = before ++ m :: after
    /\ Forall (fun x => String.ltb (key m) (key x) = true) before
    /\ Forall (fun x => String.leb (key m) (key x) = true) after.
Proof.
  intros Hne.
  destruct (sort_by_head key _ Hne) as (m & rest & before & after & Hs & Hrest).
  exists m, before, after. split; [|exact Hrest].
  rewrite Hs. reflexivity.
Qed.

(** [Alphabetical.search] returns the legal move whose algebraic notation is
    least in the order of strings, the earliest generated one when several
    moves share that notation; it changes nothing (board, engine, random
    generator, events). *)
Theorem Alphabetical_search_least_notation (w : World) :
  legal_moves (board w) <> [] ->
  exists m before after,
    Alphabetical_search w = (inr (RMove m), w)
    /\ legal_moves (board w) = before ++ m :: after
    /\ Forall (fun x => String.ltb (san (board w) m) (san (board w) x) = true) before
    /\ Forall (fun x => String.leb (san (board w) m) (san (board w) x) = true) after.
Proof.
  intros Hne.
  destruct (first_of_sort_least (san (board w)) w Hne)
    as (m & before & after & Hf & Hrest).
  exists m, before, after. split; [|exact Hrest].
  unfold Alphabetical_search, bind, get_board, ret. cbv zeta.
  rewrite Hf. reflexivity.
Qed.

(** [FirstMove.search] returns the legal move whose coordinate notation is
    least in the order of strings, the earliest generated one on equal
    notations, and changes nothing. *)
Theorem FirstMove_search_least_uci (w : World) :
  legal_moves (board w) <> [] ->
  exists m before after,
    FirstMove_search w = (inr (RMove m), w)
    /\ legal_moves (board w) = before ++ m :: after
    /\ Forall (fun x => String.ltb (uci m) (uci x) = true) before
    /\ Forall (fun x => String.leb (uci m) (uci x) = true) after.
Proof.
  intros Hne.
  destruct (first_of_sort_least uci w Hne) as (m & before & after & Hf & Hrest).
  exists m, before, after. split; [|exact Hrest].
  unfold FirstMove_search, bind, get_board, ret. cbv zeta.
  rewrite Hf. reflexivity.
Qed.

(** [RandomMove.search] returns one of the legal moves, the one at the index
    drawn from the random source; board, engine and events are untouched and
    the random source advances by that one draw. *)
Theorem RandomMove_search_draws_legal (w : World) :
  legal_moves (board w) <> [] ->
  exists m,
    nth_error (legal_moves (board w))
              (fst (randbelow (rng w) (length (legal_moves (board w))))) = Some m
    /\ RandomMove_search w
       = (inr (RMove m),
          set_rng (snd (randbelow (rng w) (length (legal_moves (board w))))) w).
Proof.
  intros Hne.
  unfold RandomMove_search, bind, get_board, random_choice, ret.
  pose proof (randbelow_lt (rng w) (length (legal_moves (board w)))) as Hlt.
  destruct (legal_moves (board w)) as [|a l] eqn:Hl; [congruence|].
  destruct (randbelow (rng w) (length (a :: l))) as [i g]. cbn [fst snd] in *.
  assert (Hi : i < length (a :: l)) by (apply Hlt; cbn; lia).
  destruct (nth_error (a :: l) i) as [x|] eqn:Hn.
  - exists x. split; reflexivity.
  - apply nth_error_None in Hn. lia.
Qed.

(** Without a legal move (mate, stalemate) the three strategies raise
    [IndexError] and change nothing. *)
Theorem simple_strategies_no_legal_moves (w : World) :
  legal_moves (board w) = [] ->
  RandomMove_search w = (inl IndexError, w)
  /\ Alphabetical_search w = (inl IndexError, w)
  /\ FirstMove_search w = (inl IndexError, w).
Proof.
  intros Hl.
  unfold RandomMove_search, Alphabetical_search, FirstMove_search,
    bind, get_board, random_choice, first_item, raise.
  cbv zeta. rewrite Hl. cbn. auto.
Qed.

End SimpleStrategies.

Lemma Alphabetical_search_least_notation_witness :
  let w := start pos_initial in
  exists m before after,
    Alphabetical_search w = (inr (RMove m), w)
    /\ legal_moves (board w) = before ++ m :: after
    /\ Forall (fun x => String.ltb (san (board w) m) (san (board w) x) = true) before
    /\ Forall (fun x => String.leb (san (board w) m) (san (board w) x) = true) after.
Proof.
  cbv zeta.
  apply (Alphabetical_search_least_notation (C := table_chess)
           (N := rational_numbers) (E := scripted_engine) (R := counter_random)
           (start pos_initial)).
  discriminate.
Defined.

(** From the initial position: [Na3] by notation, [a2a3] by coordinates. *)
Example alphabetical_and_first_move_initial :
  fst (Alphabetical_search (start pos_initial)) = inr (RMove (mv "b1a3" "Na3" 0))
  /\ fst (FirstMove_search (start pos_initial)) = inr (RMove (mv "a2a3" "a3" 0)).
Proof. split; vm_compute; reflexivity. Qed.

Lemma FirstMove_search_least_uci_witness :
  let w := start pos_initial in
  exists m before after,
    FirstMove_search w = (inr (RMove m), w)
    /\ legal_moves (board w) = before ++ m :: after
    /\ Forall (fun x => String.ltb (uci m) (uci x) = true) before
    /\ Forall (fun x => String.leb (uci m) (uci x) = true) after.
Proof.
  cbv zeta.
  apply (FirstMove_search_least_uci (C := table_chess)
           (N := rational_numbers) (E := scripted_engine) (R := counter_random)
           (start pos_initial)).
  discriminate.
Defined.

Lemma RandomMove_search_draws_legal_witness :
  let w := start pos_ep_king_a1 in
  exists m,
    nth_error (legal_moves (board w))
              (fst (randbelow (rng w) (length (legal_moves (board w))))) = Some m
    /\ RandomMove_search w
       = (inr (RMove m),
          set_rng (snd (randbelow (rng w) (length (legal_moves (board w))))) w).
Proof.
  cbv zeta.
  apply (RandomMove_search_draws_legal (C := table_chess)
           (N := rational_numbers) (E := scripted_engine) (R := counter_random)
           counter_randbelow_lt (start pos_ep_king_a1)).
  discriminate.
Defined.

Lemma simple_strategies_no_legal_moves_witness :
  let w := start pos_checkmate in
  RandomMove_search w = (inl IndexError, w)
  /\ Alphabetical_search w = (inl IndexError, w)
  /\ FirstMove_search w = (inl IndexError, w).
Proof.
  cbv zeta.
  apply (simple_strategies_no_legal_moves (C := table_chess)
           (N := rational_numbers) (E := scripted_engine) (R := counter_random)
           (start pos_checkmate)).
  reflexivity.
Defined.

(** ** [Anarchy.search]: what it asks of the engine *)

Section EngineQueries.
Context `{C : ChessLib} `{N : Numeric} `{E : !EngineLib Board Num} `{R : RandomLib}.

Lemma pushed_moves_app (evs1 evs2 : list Event) :
  pushed_moves (evs1 ++ evs2) = pushed_moves evs1 ++ pushed_moves evs2.
Proof.
  induction evs1 as [|ev evs1 IH]; [reflexivity|].
  destruct ev; cbn; rewrite ?IH; reflexivity.
Qed.

(** Whatever the outcome of the loop, the candidates it pushed are candidates
    of the list, in the order of the list and each at most once per
    occurrence; each push was followed by exactly one engine query; the random
    source is not used. *)
Lemma search_loop_pushes (st : Num) (moves : list Move) :
  forall best w,
    exists evs,
      trace (snd (search_loop st moves best w)) = trace w ++ evs
      /\ sublist (pushed_moves evs) moves
      /\ length (oracle_calls evs) = length (pushed_moves evs)
      /\ rng (snd (search_loop st moves best w)) = rng w.
Proof.
  induction moves as [|move rest IH]; intros best w.
  - exists []. cbn. rewrite app_nil_r. repeat split. constructor.
  - rewrite search_loop_cons.
    destruct (is_en_passant _ _).
    { eexists. split; [reflexivity|]. cbn. repeat split. apply sublist_nil_l. }
    destruct (String.eqb _ fen_initial).
    { eexists. split; [reflexivity|]. cbn. repeat split. apply sublist_nil_l. }
    destruct (String.eqb _ fen_e4_e5).
    { exists []. cbn. rewrite app_nil_r. repeat split. apply sublist_nil_l. }
    destruct (String.eqb _ fen_nf3_nc6).
    { exists []. cbn. rewrite app_nil_r. repeat split. apply sublist_nil_l. }
    destruct (is_king_e2_e7 _).
    { exists []. cbn. rewrite app_nil_r. repeat split. apply sublist_nil_l. }
    destruct (str_first _) as [e|c].
    { exists []. cbn. rewrite app_nil_r. repeat split. apply sublist_nil_l. }
    destruct (is_Ra4 _ _).
    + destruct (IH best (emit (EvPrint "I saw Ra4, I just didn't like it") w))
        as (evs & Htr & Hsub & Hlen & Hrng).
      exists (EvPrint "I saw Ra4, I just didn't like it" :: evs).
      split; [rewrite Htr; cbn; rewrite <- app_assoc; reflexivity|].
      split; [cbn; apply sublist_cons; exact Hsub|].
      split; [exact Hlen|exact Hrng].
    + cbv zeta. destruct (analyse _ _ _) as [[x|ev] e].
      * eexists. split; [reflexivity|]. cbn.
        split; [apply sublist_skip, sublist_nil_l|]. auto.
      * destruct (pop _) as [b|].
        -- match goal with
           | |- context [search_loop st rest ?bst ?w0] =>
               destruct (IH bst w0) as (evs & Htr & Hsub & Hlen & Hrng)
           end.
           eexists. split.
           ++ rewrite Htr. cbn. rewrite <- !app_assoc. reflexivity.
           ++ cbn. split; [apply sublist_skip; exact Hsub|].
              split; [rewrite Hlen; reflexivity|exact Hrng].
        -- eexists. split; [reflexivity|]. cbn.
           split; [apply sublist_skip, sublist_nil_l|]. auto.
Qed.

(** However [Anarchy.search] ends, it has pushed only legal moves of the
    position, in generation order, and has queried the engine exactly once
    after each push: never more queries than there are legal moves.  It
    never draws from the random source. *)
Theorem Anarchy_search_query_accounting (tl : TimeLeft Num Limit) (w : World) :
  exists evs,
    trace (snd (Anarchy_search tl w)) = trace w ++ evs
    /\ sublist (pushed_moves evs) (legal_moves (board w))
    /\ length (oracle_calls evs) = length (pushed_moves evs)
    /\ length (oracle_calls evs) <= length (legal_moves (board w))
    /\ rng (snd (Anarchy_search tl w)) = rng w.
Proof.
  rewrite Anarchy_search_eq.
  destruct (search_time _ _) as [e|st].
  - exists []. cbn. rewrite app_nil_r. repeat split; [apply sublist_nil_l|lia].
  - destruct (search_loop_pushes st (legal_moves (board w)) (None, None) w)
      as (evs & Htr & Hsub & Hlen & Hrng).
    exists evs. repeat split; try assumption.
    rewrite Hlen. apply sublist_length. exact Hsub.
Qed.

(** On the first move, when [timeLeft] is a [Limit] object, nothing is
    divided: every engine query of the call is made with [0.1 - 0.01],
    whatever the number of legal moves. *)
Theorem first_move_limit_keeps_base_time (l : Limit) (w : World) :
  search_time (FirstMoveLimit l) (length (legal_moves (board w))) = inr float_0_1
  /\ exists evs,
       trace (snd (Anarchy_search (FirstMoveLimit l) w)) = trace w ++ evs
       /\ Forall (fun q => snd (fst q) = num_sub float_0_1 float_0_01)
                 (oracle_calls evs).
Proof.
  split; [reflexivity|].
  rewrite Anarchy_search_eq. cbn [search_time].
  apply search_loop_limits.
Qed.

(** Without a legal move [Anarchy.search] returns [None] with no effect,
    except for a numeric budget [T] with [0 * 0.1 > T/10] (a negative
    budget), where the division by the number of moves raises
    [ZeroDivisionError]. *)
Theorem Anarchy_search_no_legal_moves (w : World) :
  legal_moves (board w) = [] ->
  (forall l, Anarchy_search (FirstMoveLimit l) w = (inr RNone, w))
  /\ (forall T,
        Anarchy_search (Millis T) w
        = if num_gtb (num_mul (num_of_nat 0) float_0_1)
                     (num_div (num_div T (num_of_Z 1000)) (num_of_Z 10))
          then (inl ZeroDivisionError, w)
          else (inr RNone, w)).
Proof.
  intros Hl. split; [intros l|intros T];
    rewrite Anarchy_search_eq, Hl; cbn; [reflexivity|].
  destruct (num_gtb _ _); reflexivity.
Qed.

End EngineQueries.

Lemma Anarchy_search_no_legal_moves_witness :
  let w := start pos_checkmate in
  (forall l, Anarchy_search (FirstMoveLimit l) w = (inr RNone, w))
  /\ (forall T,
        Anarchy_search (Millis T) w
        = if num_gtb (num_mul (num_of_nat 0) float_0_1)
                     (num_div (num_div T (num_of_Z 1000)) (num_of_Z 10))
          then (inl ZeroDivisionError, w)
          else (inr RNone, w)).
Proof.
  cbv zeta.
  apply (Anarchy_search_no_legal_moves (C := table_chess)
           (N := rational_numbers) (E := scripted_engine) (R := counter_random)
           (start pos_checkmate)).
  reflexivity.
Defined.

(** A minute left, or a clock already below zero. *)
Example no_legal_moves_runs :
  fst (Anarchy_search (Millis 60000%Q) (start pos_checkmate)) = inr RNone
  /\ fst (Anarchy_search (Millis (-1)%Q) (start pos_checkmate))
     = inl ZeroDivisionError.
Proof. split; vm_compute; reflexivity. Qed.

(** ** [Anarchy.search]: rules, exceptions and [None] *)

Section AnarchyRules.
Context `{C : ChessLib} `{N : Numeric} `{E : !EngineLib Board Num} `{R : RandomLib}.

Hypothesis push_pop :
  forall (b : Board) (m : Move), In m (legal_moves b) -> pop (push b m) = Some b.

Hypothesis analyse_total :
  forall (e : Engine) (b : Board) (limit : Num),
    exists s e', analyse e b limit = (inr s, e').

Lemma legal_moves_Forall_In (b : Board) :
  Forall (fun m => In m (legal_moves b)) (legal_moves b).
Proof. apply List.Forall_forall. auto. Qed.

(** A legal move that the test [s[0] == "R" and s[-2:] == "a4"] catches (and
    that is not an en-passant capture) is never pushed on the board and never
    returned by [Anarchy.search], whatever the scores and however the call
    ends. *)
Theorem Anarchy_never_plays_banned (tl : TimeLeft Num Limit) (w w' : World)
    (m : Move) (res : exn + Result Move) :
  banned (board w) m = true ->
  is_en_passant (board w) m = false ->
  Anarchy_search tl w = (res, w') ->
  res <> inr (RMove m)
  /\ exists evs, trace w' = trace w ++ evs /\ ~ In (EvPush m) evs.
Proof.
  intros Hban Hep. rewrite Anarchy_search_eq.
  destruct (search_time _ _) as [e|st].
  - intros [= <- <-]. split; [discriminate|].
    exists []. rewrite app_nil_r. auto.
  - apply (banned_candidate_skipped push_pop st (board w) m _ Hban Hep
             (legal_moves_Forall_In _)); [reflexivity|cbn; discriminate].
Qed.

(** The king rule.  When no legal move is an en-passant capture before it,
    the placement is outside the opening book, and [m] is the first candidate
    with one of the notations [Ke2], [Ke7], [Kxe2], [Kxe7], [Anarchy.search]
    returns [m] whatever the scores; the engine was queried for the candidates
    before [m] that pass the banned-move test, and for none after. *)
Theorem king_move_after_earlier_candidates (tl : TimeLeft Num Limit) (w : World)
    (before after : list Move) (m : Move) :
  legal_moves (board w) = before ++ m :: after ->
  is_en_passant (board w) m = false ->
  is_king_e2_e7 (san (board w) m) = true ->
  Forall (fun x => falls_through (board w) x = true) before ->
  in_opening_book (board_fen (board w)) = false ->
  exists w' evs,
    Anarchy_search tl w = (inr (RMove m), w')
    /\ board w' = board w
    /\ trace w' = trace w ++ evs
    /\ map (fun q => fst (fst q)) (oracle_calls evs)
       = map (push (board w)) (scored_candidates (board w) before).
Proof.
  intros Hlegal Hep Hking Hft Hbook.
  assert (Hne : legal_moves (board w) <> []).
  { rewrite Hlegal. destruct before; discriminate. }
  destruct (search_time_ok tl _ (length_not_nil _ Hne)) as (st & Hst).
  assert (Hpre : Forall (fun x => In x (legal_moves (board w))
                                  /\ falls_through (board w) x = true) before).
  { rewrite List.Forall_forall in Hft. apply List.Forall_forall.
    intros x Hx. split; [|auto]. rewrite Hlegal. apply in_or_app. auto. }
  destruct (search_loop_scores push_pop analyse_total st (board w) _ Hpre
              (fun _ => Hbook) (m :: after) (None, None) w eq_refl)
    as (scored & e & evs & Hs & Hq & _ & Hrun).
  destruct (in_opening_book_false _ Hbook) as (H1 & H2 & H3).
  rewrite Anarchy_search_eq, Hst, Hlegal, Hrun, search_loop_cons.
  cbn [board]. rewrite Hep, H1, H2, H3, Hking.
  eexists. exists evs.
  split; [reflexivity|]. split; [reflexivity|]. split; [reflexivity|].
  rewrite Hq, <- Hs, !map_map. reflexivity.
Qed.

(** An exception inside the loop leaves the board as it was, unless it came
    from the engine: then the candidate being scored is still on the board
    (the push is not undone), and the failed query is the last event. *)
Lemma search_loop_exception (st : Num) (b : Board) (moves : list Move) :
  Forall (fun m => In m (legal_moves b)) moves ->
  forall best w e w',
    board w = b ->
    search_loop st moves best w = (inl e, w') ->
    board w' = b
    \/ exists m evs,
         In m moves
         /\ board w' = push b m
         /\ trace w' = trace w ++ evs
                       ++ [EvPush m;
                           EvAnalyse (push b m) (num_sub st float_0_01) (inl e)].
Proof.
  induction 1 as [|move rest Hin _ IH]; intros best w e w' Hb Hrun.
  - cbn in Hrun. discriminate.
  - rewrite search_loop_cons in Hrun. rewrite Hb in Hrun.
    destruct (is_en_passant _ _); [discriminate|].
    destruct (String.eqb _ fen_initial); [discriminate|].
    destruct (String.eqb _ fen_e4_e5); [discriminate|].
    destruct (String.eqb _ fen_nf3_nc6); [discriminate|].
    destruct (is_king_e2_e7 _); [discriminate|].
    destruct (str_first _) as [x|c].
    { injection Hrun as _ <-. left. exact Hb. }
    destruct (is_Ra4 _ _).
    + apply IH in Hrun; [|exact Hb].
      destruct Hrun as [Hb'|(m & evs & Hm & Hb' & Htr)]; [left; exact Hb'|].
      right. exists m, (EvPrint "I saw Ra4, I just didn't like it" :: evs).
      split; [right; exact Hm|]. split; [exact Hb'|].
      rewrite Htr. cbn. rewrite <- app_assoc. reflexivity.
    + cbv zeta in Hrun.
      destruct (analyse _ _ _) as [[x|ev] e1].
      * injection Hrun as <- <-. right. exists move, [].
        split; [left; reflexivity|]. split; reflexivity.
      * rewrite (push_pop _ _ Hin) in Hrun.
        apply IH in Hrun; [|reflexivity].
        destruct Hrun as [Hb'|(m & evs & Hm & Hb' & Htr)]; [left; exact Hb'|].
        right.
        exists m, (EvPush move
                     :: EvAnalyse (push b move) (num_sub st float_0_01) (inr ev)
                     :: EvPop :: evs).
        split; [right; exact Hm|]. split; [exact Hb'|].
        rewrite Htr. cbn. rewrite <- !app_assoc. reflexivity.
Qed.

(** When [Anarchy.search] raises, the board is the one it was called with,
    or, when the engine failed, that board with one legal candidate pushed
    and not popped: nothing undoes the push on the way out. *)
Theorem Anarchy_search_exception_board (tl : TimeLeft Num Limit) (w w' : World)
    (e : exn) :
  Anarchy_search tl w = (inl e, w') ->
  board w' = board w
  \/ exists m evs limit,
       In m (legal_moves (board w))
       /\ board w' = push (board w) m
       /\ trace w' = trace w ++ evs
                     ++ [EvPush m; EvAnalyse (push (board w) m) limit (inl e)].
Proof.
  rewrite Anarchy_search_eq.
  destruct (search_time _ _) as [x|st].
  - intros [= _ <-]. left. reflexivity.
  - intros Hrun.
    destruct (search_loop_exception st (board w) _ (legal_moves_Forall_In _)
                (None, None) w e w' eq_refl Hrun)
      as [Hb|(m & evs & Hm & Hb & Htr)]; [left; exact Hb|].
    right. exists m, evs, (num_sub st float_0_01). auto.
Qed.

(** [None] comes back only when no candidate was scored.  The invariant:
    once a best evaluation is recorded, so is a best move. *)
Lemma search_loop_None (st : Num) (b : Board) (moves : list Move) :
  Forall (fun m => In m (legal_moves b)) moves ->
  forall best w w',
    board w = b ->
    (fst best <> None -> snd best <> None) ->
    search_loop st moves best w = (inr RNone, w') ->
    snd best = None
    /\ Forall (fun m => banned b m = true) moves
    /\ engine w' = engine w.
Proof.
  induction 1 as [|move rest Hin _ IH]; intros best w w' Hb Hinv Hrun.
  - cbn in Hrun. injection Hrun as Hr <-.
    destruct (snd best); [discriminate|]. auto.
  - rewrite search_loop_cons in Hrun. rewrite Hb in Hrun.
    destruct (is_en_passant _ _); [discriminate|].
    destruct (String.eqb _ fen_initial); [discriminate|].
    destruct (String.eqb _ fen_e4_e5); [discriminate|].
    destruct (String.eqb _ fen_nf3_nc6); [discriminate|].
    destruct (is_king_e2_e7 _); [discriminate|].
    destruct (str_first (san b move)) as [x|c] eqn:Hc; [discriminate|].
    destruct (is_Ra4 c (san b move)) eqn:HR.
    + apply IH in Hrun; [|exact Hb|exact Hinv].
      destruct Hrun as (Hbest & Hall & He). repeat split; try assumption.
      constructor; [|exact Hall]. unfold banned. rewrite Hc. exact HR.
    + cbv zeta in Hrun.
      destruct (analyse _ _ _) as [[x|ev] e1]; [discriminate|].
      rewrite (push_pop _ _ Hin) in Hrun.
      apply IH in Hrun; [|reflexivity|].
      * destruct Hrun as (Hbest & _). exfalso. revert Hbest.
        unfold update_best.
        destruct (fst best) eqn:Hf; [destruct (score_gtb _ _)|]; cbn;
          try discriminate.
        apply Hinv. discriminate.
      * unfold update_best.
        destruct (fst best) eqn:Hf; [destruct (score_gtb _ _)|]; cbn;
          try discriminate.
        rewrite Hf. exact Hinv.
Qed.

(** When [Anarchy.search] returns [None], every legal move of the position
    (if any) was caught by the banned-move test, and the engine was not
    used. *)
Theorem Anarchy_search_None_only_if_all_banned (tl : TimeLeft Num Limit)
    (w w' : World) :
  Anarchy_search tl w = (inr RNone, w') ->
  Forall (fun m => banned (board w) m = true) (legal_moves (board w))
  /\ engine w' = engine w.
Proof.
  rewrite Anarchy_search_eq.
  destruct (search_time _ _) as [x|st]; [discriminate|].
  intros Hrun.
  destruct (search_loop_None st (board w) _ (legal_moves_Forall_In _)
              (None, None) w w' eq_refl ltac:(cbn; congruence) Hrun)
    as (_ & Hall & He).
  auto.
Qed.

End AnarchyRules.

Lemma Anarchy_never_plays_banned_witness :
  let w := start pos_rook_quiet in
  let m := mv "a1a4" "Ra4" (-900) in
  let run := Anarchy_search (Millis 60000%Q) w in
  fst run <> inr (RMove m)
  /\ exists evs, trace (snd run) = trace w ++ evs /\ ~ In (EvPush m) evs.
Proof.
  cbv zeta.
  apply (Anarchy_never_plays_banned (C := table_chess) (N := rational_numbers)
           (E := scripted_engine) (R := counter_random)
           tb_push_pop (Millis 60000%Q) (start pos_rook_quiet)).
  - reflexivity.
  - reflexivity.
  - apply surjective_pairing.
Defined.

(** The engine's favourite there is the rook move to a4; the next best is
    played. *)
Example banned_favourite_is_passed_over :
  fst (Anarchy_search (Millis 60000%Q) (start pos_rook_quiet))
  = inr (RMove (mv "a1a7" "Ra7" (-540))).
Proof. vm_compute. reflexivity. Qed.

Lemma king_move_after_earlier_candidates_witness :
  let w := start pos_ep_king_e1 in
  let before := [ mv "e1f2" "Kf2" (-40) ] in
  let m := mv "e1e2" "Ke2" (-35) in
  exists w' evs,
    Anarchy_search (Millis 60000%Q) w = (inr (RMove m), w')
    /\ board w' = board w
    /\ trace w' = trace w ++ evs
    /\ map (fun q => fst (fst q)) (oracle_calls evs)
       = map (push (board w)) (scored_candidates (board w) before).
Proof.
  cbv zeta.
  apply (king_move_after_earlier_candidates (C := table_chess)
           (N := rational_numbers) (E := scripted_engine) (R := counter_random)
           tb_push_pop scripted_analyse_total
           (Millis 60000%Q) (start pos_ep_king_e1) _
           [ mv "e1d2" "Kd2" (-45); mv "e1f1" "Kf1" (-30); mv "e1d1" "Kd1" (-30);
             mv "e5e6" "e6" (-60); ep "e5d6" "exd6" (-120) ] _).
  - reflexivity.
  - reflexivity.
  - reflexivity.
  - repeat constructor.
  - reflexivity.
Defined.

Lemma crashing_push_pop (b : TBoard) (m : TMove) :
  In m (legal_moves b) -> pop (push b m) = Some b.
Proof. intros _. destruct b. reflexivity. Qed.

Lemma Anarchy_search_exception_board_witness :
  let w := start_crashing pos_ep_king_a1 2 in
  let run := Anarchy_search (E := crashing_engine) (Millis 60000%Q) w in
  board (snd run) = board w
  \/ exists m evs limit,
       In m (legal_moves (board w))
       /\ board (snd run) = push (board w) m
       /\ trace (snd run) = trace w ++ evs
            ++ [EvPush m; EvAnalyse (push (board w) m) limit (inl EngineError)].
Proof.
  cbv zeta.
  apply (Anarchy_search_exception_board (C := table_chess)
           (N := rational_numbers) (E := crashing_engine) (R := counter_random)
           crashing_push_pop (Millis 60000%Q) (start_crashing pos_ep_king_a1 2)).
  vm_compute. reflexivity.
Defined.

(** The engine fails on the third query: [Kb1] stays on the board. *)
Example exception_leaves_candidate_pushed :
  let run := Anarchy_search (E := crashing_engine) (Millis 60000%Q)
               (start_crashing pos_ep_king_a1 2) in
  fst run = inl EngineError
  /\ map tm_san (tb_move_stack (board (snd run))) = ["Kb1"].
Proof. split; vm_compute; reflexivity. Qed.

Lemma Anarchy_search_None_only_if_all_banned_witness :
  let w := start pos_only_Ra4 in
  let run := Anarchy_search (Millis 60000%Q) w in
  Forall (fun m => banned (board w) m = true) (legal_moves (board w))
  /\ engine (snd run) = engine w.
Proof.
  cbv zeta.
  apply (Anarchy_search_None_only_if_all_banned (C := table_chess)
           (N := rational_numbers) (E := scripted_engine) (R := counter_random)
           tb_push_pop (Millis 60000%Q) (start pos_only_Ra4)).
  vm_compute. reflexivity.
Defined.

(** What [Anarchy.search] returns from the initial position is the reply of
    the book. *)
Lemma Anarchy_search_result_witness :
  In (board_fen (board (start pos_initial)), "e2e4") opening_book.
Proof.
  eapply (Anarchy_search_result (C := table_chess) (N := rational_numbers)
            (E := scripted_engine) (R := counter_random)
            tb_push_pop (Millis 60000%Q) (start pos_initial) _ (RStr "e2e4")).
  cbv. reflexivity.
Defined.

(** ** The time budget in exact arithmetic *)



(** ** The filler object of a strategy *)

Section EngineShim.
Context `{O : OwnerLib}.

(** After [MinimalEngine.__init__] the filler object answers [id] with the
    engine name (the class name unless a name was given), overwriting the
    dictionary its own [__init__] had stored; [name] is still the name it was
    created with; and every attribute that ordinary lookup does not resolve
    forwards to the [notify] of the strategy itself. *)
Theorem MinimalEngine_engine_shim (self : Obj) (self_name : Value Obj)
    (class_name : string) (name : option string) (attr : string) :
  let engine_name := VStr (MinimalEngine_engine_name class_name name) in
  let shim := MinimalEngine_init_engine self self_name engine_name in
  getattr shim "id" = inr (VDict {["name" := engine_name]})
  /\ getattr shim "name" = inr self_name
  /\ (attr <> "id" -> attr <> "name" -> attr <> "main_engine" ->
      type_attr attr = None ->
      exists f,
        getattr shim attr = inr f
        /\ forall args kwargs h,
             call f args kwargs h = notify self attr args kwargs h).
Proof.
  cbv zeta. unfold getattr, lookup_attr, MinimalEngine_init_engine.
  destruct (FillerEngine_init_lookup (VObj self) self_name) as (_ & Hn & Hm).
  split; [rewrite lookup_insert_eq; reflexivity|].
  split; [rewrite lookup_insert_ne by discriminate; rewrite Hn; reflexivity|].
  intros H1 H2 H3 Hty.
  exists (VMethod (VObj self) attr). split; [|reflexivity].
  rewrite lookup_insert_ne by congruence.
  rewrite (FillerEngine_init_lookup_other _ _ _ H1 H2 H3), Hty.
  unfold FillerEngine_getattr, lookup_attr.
  rewrite lookup_insert_ne by discriminate. rewrite Hm. reflexivity.
Qed.

End EngineShim.

Lemma MinimalEngine_engine_shim_witness :
  let engine_name : Value nat := VStr "Anarchy" in
  let shim := MinimalEngine_init_engine (O := recording_owner) 7 VNone engine_name in
  getattr shim "id" = inr (VDict {["name" := engine_name]})
  /\ exists f,
       getattr shim "quit" = inr f
       /\ forall args kwargs h, call f args kwargs h = notify 7 "quit" args kwargs h.
Proof.
  cbv zeta.
  destruct (MinimalEngine_engine_shim (O := recording_owner) 7 VNone
              "Anarchy" None "quit") as (Hid & _ & Hfwd).
  split; [exact Hid|].
  apply Hfwd; [discriminate|discriminate|discriminate|reflexivity].
Defined.
